(** * cartridge/shop/admin.py: the shop's admin classes

    A shallow embedding of the admin module of the shop and the proofs of
    the properties stated about it.  The module is configuration over an
    admin framework; what it computes itself is

    - the field lists and fieldsets of the admin classes, as functions of
      the settings ([variation_fields], [product_fieldsets], ...);
    - [address_pairs], which lays address fields out two per row;
    - [ProductAdmin.__init__], which copies the class fieldsets and inserts
      the extra fields of a product subclass;
    - [ProductAdmin.save_formset], which orders the saves of the two inline
      formsets and the calls of the variation manager;
    - [ProductAdmin.change_view] and [ProductAdmin.in_menu].

    Calls into the framework and into the models are recorded as events of
    a trace, in the order the code issues them; a backend interprets the
    events on a state of the database. *)

From stdpp Require Import base strings list gmap.
From Stdlib Require Import Ascii.

Local Open Scope string_scope.
Local Open Scope list_scope.
Local Open Scope nat_scope.

(** ** Python values used by the module *)

Module Py.

(** [l.insert(i, x)] for [0 <= i]: past the end it appends. *)
Definition insert {A} (i : nat) (x : A) (l : list A) : list A :=
  take i l ++ x :: drop i l.

(** [l[i:j] = xs] for [0 <= i <= j]. *)
Definition slice_assign {A} (i j : nat) (xs l : list A) : list A :=
  take i l ++ xs ++ drop j l.

(** [l[start::step]] for [1 <= step]: the elements at the indices [start],
    [start + step], ...; [skip] counts the elements still to pass over. *)
Fixpoint every {A} (step skip : nat) (l : list A) : list A :=
  match l with
  | [] => []
  | x :: l' =>
      match skip with
      | 0 => x :: every step (step - 1) l'
      | S k => every step k l'
      end
  end.

Definition slice_step {A} (start step : nat) (l : list A) : list A :=
  every step start l.

(** [s.startswith(p)] *)
Definition startswith (p s : string) : bool := String.prefix p s.

(** [s.endswith(p)]: some tail of [s] is [p]. *)
Fixpoint endswith (p s : string) : bool :=
  String.eqb s p ||
  match s with
  | EmptyString => false
  | String _ s' => endswith p s'
  end.

(** [s.replace(old, new)]: every occurrence of [old], found from the left
    and not overlapping, becomes [new].  [skip] counts the characters of an
    occurrence already replaced that are still to be passed over. *)
Fixpoint replace_from (old new : string) (skip : nat) (s : string) : string :=
  match s with
  | EmptyString => EmptyString
  | String c s' =>
      match skip with
      | S k => replace_from old new k s'
      | 0 =>
          if String.prefix old s
          then new +:+ replace_from old new (String.length old - 1) s'
          else String c (replace_from old new 0 s')
      end
  end.

(** With an empty [old] Python puts [new] before every character and at
    the end. *)
Fixpoint intersperse (new s : string) : string :=
  match s with
  | EmptyString => new
  | String c s' => new +:+ String c (intersperse new s')
  end.

Definition replace (old new s : string) : string :=
  match old with
  | EmptyString => intersperse new s
  | String _ _ => replace_from old new 0 s
  end.

End Py.

(** ** Fieldsets

    An entry of a fieldset's ["fields"] is a field name or a tuple of names
    shown on one line. *)

Inductive FieldEntry :=
  | Field (name : string)
  | Group (names : list string).

#[global] Instance FieldEntry_eq_dec : EqDecision FieldEntry.
Proof. solve_decision. Defined.

(** The names of an entry, in order. *)
Definition entry_names (e : FieldEntry) : list string :=
  match e with
  | Field n => [n]
  | Group ns => ns
  end.

Definition flatten (es : list FieldEntry) : list string :=
  es ≫= entry_names.

(** ** [address_pairs] *)

(** [[
def address_pairs(fields):
    pairs = list(zip(fields[::2], fields[1::2]))
    if len(fields) % 2:
        pairs.append(fields[-1])
    return pairs
]]
    [fields[-1]] is evaluated only when the length is odd, so the list has
    a last element and the index cannot fail. *)
Definition address_pairs (fields : list string) : list FieldEntry :=
  let pairs :=
    (λ p : string * string, Group [p.1; p.2])
      <$> zip (Py.slice_step 0 2 fields) (Py.slice_step 1 2 fields) in
  if decide (length fields `mod` 2 = 0) then pairs
  else match last fields with
       | Some x => pairs ++ [Field x]
       | None => pairs
       end.

(** What the docstring describes, by recursion on the list: two fields at
    a time, a last field alone. *)
Fixpoint pair_up (fields : list string) : list FieldEntry :=
  match fields with
  | [] => []
  | [a] => [Field a]
  | a :: b :: rest => Group [a; b] :: pair_up rest
  end.

(** [_flds = lambda s: [f.name for f in Order._meta.fields
                        if f.name.startswith(s)]], over the names of the
    fields of [Order]. *)
Definition _flds (order_fields : list string) (s : string) : list string :=
  filter (λ name, Py.startswith s name = true) order_fields.

Definition billing_fields (order_fields : list string) : list string :=
  _flds order_fields "billing_detail".

Definition shipping_fields (order_fields : list string) : list string :=
  _flds order_fields "shipping_detail".

(** A fieldset is a title and a dictionary with the keys ["fields"] and,
    for some, ["classes"]. *)
Record Fieldset := {
  fs_title : option string;
  fs_fields : list FieldEntry;
  fs_classes : option (list string)
}.

#[global] Instance Fieldset_eq_dec : EqDecision Fieldset.
Proof. solve_decision. Defined.

Definition with_fields (f : Fieldset) (fields : list FieldEntry) : Fieldset :=
  {| fs_title := fs_title f; fs_fields := fields; fs_classes := fs_classes f |}.

(** [OrderAdmin.fieldsets] *)
Definition OrderAdmin_fieldsets (order_fields : list string) : list Fieldset :=
  [ {| fs_title := Some "Billing details";
       fs_fields := address_pairs (billing_fields order_fields);
       fs_classes := None |};
    {| fs_title := Some "Shipping details";
       fs_fields := address_pairs (shipping_fields order_fields);
       fs_classes := None |};
    {| fs_title := None;
       fs_fields := [ Field "additional_instructions";
                      Group ["shipping_total"; "shipping_type"];
                      Group ["discount_total"; "discount_code"];
                      Field "item_total";
                      Group ["total"; "status"] ];
       fs_classes := None |} ].

(** ** Exceptions and results

    The exceptions a run of the module can end in: the framework's
    [Http404], Python's [IndexError] and [AttributeError], and
    [ValueError], which the framework's lookup of a product raises for a
    key it cannot convert.  The module defines no exception class and has
    no [raise] statement. *)

Inductive exn :=
  | Http404
  | IndexError
  | AttributeError (attr : string)
  | ValueError.

Inductive result (A : Type) :=
  | Ok (a : A)
  | Raise (e : exn).
Arguments Ok {A} a.
Arguments Raise {A} e.

#[global] Instance exn_eq_dec : EqDecision exn.
Proof. solve_decision. Defined.

(** ** Settings and the lists computed when the module is loaded *)

Record Settings := {
  SHOP_USE_VARIATIONS : bool;
  SHOP_USE_RELATED_PRODUCTS : bool;
  SHOP_USE_UPSELL_PRODUCTS : bool
}.

(** [[
variation_fields = ["sku", "num_in_stock", "unit_price", "currency",
                    "sale_price", "sale_from", "sale_to", "image"]
if settings.SHOP_USE_VARIATIONS:
    variation_fields.insert(1, "default")
    variations_max_num = None
    variations_extra = 0
else:
    variations_max_num = 1
    variations_extra = 1
]] *)
Definition variation_fields (settings : Settings) : list string :=
  let variation_fields :=
    ["sku"; "num_in_stock"; "unit_price"; "currency";
     "sale_price"; "sale_from"; "sale_to"; "image"] in
  if SHOP_USE_VARIATIONS settings
  then Py.insert 1 "default" variation_fields
  else variation_fields.

Definition variations_max_num (settings : Settings) : option nat :=
  if SHOP_USE_VARIATIONS settings then None else Some 1.

Definition variations_extra (settings : Settings) : nat :=
  if SHOP_USE_VARIATIONS settings then 0 else 1.

(** The models the module imports. *)
Inductive ModelClass :=
  | Category | Product | ProductImage | ProductVariation | ProductOption
  | Order | OrderItem | Sale | DiscountCode
  | ProductTopka | ProductHearth | ProductPortal | ProductFacing
  | ProductStone.

#[global] Instance ModelClass_eq_dec : EqDecision ModelClass.
Proof. solve_decision. Defined.



Definition ProductVariationAdmin_fields := variation_fields.
Definition ProductVariationAdmin_max_num := variations_max_num.
Definition ProductVariationAdmin_extra := variations_extra.


(** [other_product_fields] *)
Definition other_product_fields (settings : Settings) : list string :=
  (if SHOP_USE_RELATED_PRODUCTS settings then ["related_products"] else [])
  ++ (if SHOP_USE_UPSELL_PRODUCTS settings then ["upsell_products"] else []).

Definition create_variations_fieldset (option_fields : list string)
    : Fieldset :=
  {| fs_title := Some "Create new variations";
     fs_fields := Field <$> option_fields;
     fs_classes := Some ["create-variations"] |}.

Definition other_products_fieldset (settings : Settings) : Fieldset :=
  {| fs_title := Some "Other products";
     fs_fields := Field <$> other_product_fields settings;
     fs_classes := Some ["collapse-closed"] |}.

(** [[
product_fieldsets = deepcopy(DisplayableAdmin.fieldsets)
product_fieldsets[0][1]["fields"].insert(2, "available")
product_fieldsets[0][1]["fields"].insert(3, "manufacturer")
product_fieldsets[0][1]["fields"].extend(["content", "categories"])
product_fieldsets = list(product_fieldsets)
...
if len(other_product_fields) > 0:
    product_fieldsets.append((_("Other products"), {...}))
...
if settings.SHOP_USE_VARIATIONS:
    product_fieldsets.insert(1, (_("Create new variations"),
        {"classes": ("create-variations",), "fields": option_fields}))
]]
    [displayable] is the value of [DisplayableAdmin.fieldsets] and
    [option_fields] the names of [ProductVariation.option_fields()], both
    defined outside the module.  Indexing an empty [displayable] raises. *)
Definition product_fieldsets (settings : Settings) (option_fields : list string)
    (displayable : list Fieldset) : result (list Fieldset) :=
  match displayable with
  | [] => Raise IndexError
  | first :: others =>
      let fields := Py.insert 2 (Field "available") (fs_fields first) in
      let fields := Py.insert 3 (Field "manufacturer") fields in
      let fields := fields ++ [Field "content"; Field "categories"] in
      let product_fieldsets := with_fields first fields :: others in
      let product_fieldsets :=
        if decide (0 < length (other_product_fields settings))
        then product_fieldsets ++ [other_products_fieldset settings]
        else product_fieldsets in
      Ok (if SHOP_USE_VARIATIONS settings
          then Py.insert 1 (create_variations_fieldset option_fields)
                 product_fieldsets
          else product_fieldsets)
  end.

(** [[
product_list_display = ["admin_thumb", "title", "status", "available",
                        "admin_link"]
product_list_editable = ["status", "available"]
if settings.SHOP_USE_VARIATIONS: ...
else:
    extra_list_fields = ["sku", "unit_price", "sale_price", "num_in_stock"]
    product_list_display[4:4] = extra_list_fields
    product_list_editable.extend(extra_list_fields)
]] *)
Definition extra_list_fields : list string :=
  ["sku"; "unit_price"; "sale_price"; "num_in_stock"].

Definition product_list_display (settings : Settings) : list string :=
  let product_list_display :=
    ["admin_thumb"; "title"; "status"; "available"; "admin_link"] in
  if SHOP_USE_VARIATIONS settings then product_list_display
  else Py.slice_assign 4 4 extra_list_fields product_list_display.

Definition product_list_editable (settings : Settings) : list string :=
  let product_list_editable := ["status"; "available"] in
  if SHOP_USE_VARIATIONS settings then product_list_editable
  else product_list_editable ++ extra_list_fields.

(** ** Fieldsets as shared objects

    The ["fields"] list of a fieldset is a mutable list: the class
    attribute [fieldsets] of an admin class and the attribute an instance
    reads through [self.fieldsets] are the same object until the instance
    is given one of its own.  The store holds the ["fields"] lists, the
    only objects [__init__] changes in place; a fieldset refers to its
    list by location. *)

Abbreviation loc := positive.
Abbreviation store := (gmap loc (list FieldEntry)).

Record FieldsetRef := {
  r_title : option string;
  r_fields : loc;
  r_classes : option (list string)
}.

Definition with_loc (r : FieldsetRef) (l : loc) : FieldsetRef :=
  {| r_title := r_title r; r_fields := l; r_classes := r_classes r |}.

(** The value a fieldset denotes in a store. *)
Definition load_fieldset (σ : store) (r : FieldsetRef) : option Fieldset :=
  fields ← σ !! r_fields r;
  Some {| fs_title := r_title r; fs_fields := fields;
          fs_classes := r_classes r |}.

Definition load (σ : store) (rs : list FieldsetRef) : option (list Fieldset) :=
  mapM (load_fieldset σ) rs.

(** [deepcopy]: every ["fields"] list reached is copied to a location that
    is not in use; the memo keeps a list that is reached twice shared in
    the copy, as Python's does. *)
Fixpoint deepcopy_memo (rs : list FieldsetRef) (memo : gmap loc loc)
    (σ : store) : list FieldsetRef * store :=
  match rs with
  | [] => ([], σ)
  | r :: rs' =>
      match memo !! r_fields r with
      | Some l' =>
          let '(copy, σ') := deepcopy_memo rs' memo σ in
          (with_loc r l' :: copy, σ')
      | None =>
          let l' := fresh (dom σ) in
          let σ1 := <[l' := default [] (σ !! r_fields r)]> σ in
          let '(copy, σ') :=
            deepcopy_memo rs' (<[r_fields r := l']> memo) σ1 in
          (with_loc r l' :: copy, σ')
      end
  end.

Definition deepcopy (rs : list FieldsetRef) (σ : store)
    : list FieldsetRef * store :=
  deepcopy_memo rs ∅ σ.

(** A value put in the store, every ["fields"] list at a location of its
    own: the fieldsets as the module leaves them once it is loaded. *)
Fixpoint store_fieldsets (value : list Fieldset) (σ : store)
    : list FieldsetRef * store :=
  match value with
  | [] => ([], σ)
  | f :: rest =>
      let l := fresh (dom σ) in
      let '(rs, σ') := store_fieldsets rest (<[l := fs_fields f]> σ) in
      ({| r_title := fs_title f; r_fields := l; r_classes := fs_classes f |}
       :: rs, σ')
  end.

(** ** Objects of the framework the admin handles *)

(** A model instance: its class and its primary key. *)
Record ModelObj := {
  obj_class : ModelClass;
  obj_id : nat
}.

(** An inline formset: the model of its rows and its prefix in the form. *)
Record Formset := {
  formset_model : ModelClass;
  formset_prefix : string
}.

(** A field of a model's [_meta.fields]. *)
Record ModelField := {
  f_name : string;
  f_editable : bool
}.

#[global] Instance ModelObj_eq_dec : EqDecision ModelObj.
Proof. solve_decision. Defined.

#[global] Instance Formset_eq_dec : EqDecision Formset.
Proof. solve_decision. Defined.

(** ** A [ProductAdmin] instance

    [admin_class_fieldsets] is the [fieldsets] attribute of the instance's
    class and [admin_fieldsets] the instance's own, once assigned;
    [_product] and [_images_formset] are the attributes the save methods
    set, absent on a new instance.  [exclude] and [form_meta_exclude] are
    [None] where [self.exclude] or [self.form.Meta.exclude] is missing or
    not a list. *)
Record ProductAdmin := {
  model : ModelClass;
  admin_class_fieldsets : list FieldsetRef;
  admin_fieldsets : option (list FieldsetRef);
  exclude : option (list string);
  form_meta_exclude : option (list string);
  _product : option ModelObj;
  _images_formset : option Formset
}.

(** [self.fieldsets] *)
Definition fieldsets (self : ProductAdmin) : list FieldsetRef :=
  default (admin_class_fieldsets self) (admin_fieldsets self).

Definition set_fieldsets (self : ProductAdmin) (rs : list FieldsetRef)
    : ProductAdmin :=
  {| model := model self;
     admin_class_fieldsets := admin_class_fieldsets self;
     admin_fieldsets := Some rs;
     exclude := exclude self;
     form_meta_exclude := form_meta_exclude self;
     _product := _product self;
     _images_formset := _images_formset self |}.

Definition set_product (self : ProductAdmin) (obj : ModelObj) : ProductAdmin :=
  {| model := model self;
     admin_class_fieldsets := admin_class_fieldsets self;
     admin_fieldsets := admin_fieldsets self;
     exclude := exclude self;
     form_meta_exclude := form_meta_exclude self;
     _product := Some obj;
     _images_formset := _images_formset self |}.

Definition set_images_formset (self : ProductAdmin) (formset : Formset)
    : ProductAdmin :=
  {| model := model self;
     admin_class_fieldsets := admin_class_fieldsets self;
     admin_fieldsets := admin_fieldsets self;
     exclude := exclude self;
     form_meta_exclude := form_meta_exclude self;
     _product := _product self;
     _images_formset := Some formset |}.

(** ** [ProductAdmin.__init__] *)

(** [[
check_fields = [f.name for f in Product._meta.fields]
check_fields.append("product_ptr")
try:
    check_fields.extend(self.exclude)
except (AttributeError, TypeError):
    pass
try:
    check_fields.extend(self.form.Meta.exclude)
except (AttributeError, TypeError):
    pass
]] *)
Definition check_fields (product_meta_fields : list ModelField)
    (self : ProductAdmin) : list string :=
  let check_fields := f_name <$> product_meta_fields in
  let check_fields := check_fields ++ ["product_ptr"] in
  let check_fields :=
    match exclude self with
    | Some names => check_fields ++ names
    | None => check_fields
    end in
  match form_meta_exclude self with
  | Some names => check_fields ++ names
  | None => check_fields
  end.

(** [field.name not in check_fields and field.editable] *)
Definition is_extra_field (check : list string) (field : ModelField) : bool :=
  bool_decide (f_name field ∉ check) && f_editable field.

(** [self.fieldsets[0][1]["fields"].insert(3, field.name)] *)
Definition insert_extra_field (rs : list FieldsetRef) (name : string)
    (σ : store) : result store :=
  match rs with
  | [] => Raise IndexError
  | first :: _ => Ok (alter (Py.insert 3 (Field name)) (r_fields first) σ)
  end.

(** The loop over [reversed(self.model._meta.fields)]. *)
Fixpoint insert_extra_fields (rs : list FieldsetRef) (check : list string)
    (reversed_fields : list ModelField) (σ : store) : result store :=
  match reversed_fields with
  | [] => Ok σ
  | field :: rest =>
      if is_extra_field check field
      then match insert_extra_field rs (f_name field) σ with
           | Ok σ' => insert_extra_fields rs check rest σ'
           | Raise e => Raise e
           end
      else insert_extra_fields rs check rest σ
  end.

(** [[
def __init__(self, ...):
    super(ProductAdmin, self).__init__(...)
    if (self.model is not Product and
                self.fieldsets == ProductAdmin.fieldsets):
        self.fieldsets = deepcopy(self.fieldsets)
        for field in reversed(self.model._meta.fields):
            ...
            if field.name not in check_fields and field.editable:
                self.fieldsets[0][1]["fields"].insert(3, field.name)
]]
    [ProductAdmin_fieldsets] is the class attribute of [ProductAdmin]
    itself and [meta_fields] gives [_meta.fields] of a model.  [==]
    compares the fieldsets by value. *)
Definition __init__ (ProductAdmin_fieldsets : list FieldsetRef)
    (meta_fields : ModelClass → list ModelField)
    (self : ProductAdmin) (σ : store) : result (ProductAdmin * store) :=
  if decide (model self ≠ Product
             ∧ load σ (fieldsets self) = load σ ProductAdmin_fieldsets)
  then
    let '(copy, σ1) := deepcopy (fieldsets self) σ in
    let self := set_fieldsets self copy in
    match insert_extra_fields (fieldsets self)
            (check_fields (meta_fields Product) self)
            (reverse (meta_fields (model self))) σ1 with
    | Ok σ2 => Ok (self, σ2)
    | Raise e => Raise e
    end
  else Ok (self, σ).

(** ** The request *)

(** [request.POST] is a [QueryDict]: every key has the list of the values
    submitted under it, and the keys keep the order of the form. *)
Module QueryDict.

Abbreviation t := (list (string * list string)).

Fixpoint lookup (key : string) (d : t) : option (list string) :=
  match d with
  | [] => None
  | (k, values) :: d' => if decide (k = key) then Some values else lookup key d'
  end.

(** [d.getlist(key)]: the values of [key], none when it is absent. *)
Definition getlist (key : string) (d : t) : list string :=
  default [] (lookup key d).

(** [d.get(key)]: the last value of [key], [None] when there is none. *)
Definition get (key : string) (d : t) : option string :=
  lookup key d ≫= last.

(** Iterating over the dictionary gives its keys. *)
Definition keys (d : t) : list string := d.*1.

End QueryDict.

Record HttpRequest := {
  POST : QueryDict.t
}.

Module PyDict.

(** [d[k] = v] on a dictionary kept as the list of its items. *)
Fixpoint set {V} (k : string) (v : V) (d : list (string * V))
    : list (string * V) :=
  match d with
  | [] => [(k, v)]
  | (k', v') :: d' =>
      if decide (k' = k) then (k, v) :: d' else (k', v') :: set k v d'
  end.

(** [dict(items)] *)
Definition of_items {V} (items : list (string * V)) : list (string * V) :=
  foldl (λ d kv, set kv.1 kv.2 d) [] items.

End PyDict.

(** [[
options = dict([(f, request.POST.getlist(f)) for f in option_fields
                if request.POST.getlist(f)])
]] *)
Definition selected_options (option_fields : list string)
    (request : HttpRequest) : list (string * list string) :=
  PyDict.of_items
    ((λ f, (f, QueryDict.getlist f (POST request)))
       <$> filter (λ f, QueryDict.getlist f (POST request) ≠ [])
             option_fields).

(** [f.startswith("images-") and f.endswith("-DELETE")] *)
Definition is_image_delete_key (f : string) : bool :=
  Py.startswith "images-" f && Py.endswith "-DELETE" f.

(** [[
deleted_images = [request.POST.get(f.replace("-DELETE", "-id"))
                  for f in request.POST if f.startswith("images-")
    and f.endswith("-DELETE")]
]] *)
Definition deleted_images (request : HttpRequest) : list (option string) :=
  (λ f, QueryDict.get (Py.replace "-DELETE" "-id" f) (POST request))
    <$> filter (λ f, is_image_delete_key f = true)
          (QueryDict.keys (POST request)).

(** The index of a row in the key of one of its inputs is a decimal
    number. *)
Definition is_digit (c : ascii) : bool :=
  (48 <=? nat_of_ascii c) && (nat_of_ascii c <=? 57).

Fixpoint all_digits (s : string) : bool :=
  match s with
  | EmptyString => true
  | String c s' => is_digit c && all_digits s'
  end.

(** ** Calls out of the module

    The calls [save_model] and [save_formset] make into the framework
    ([super(ProductAdmin, self)]) and into the product's variation manager
    and the product. *)
Inductive Event :=
  | SuperSaveModel (obj : ModelObj)
  | SuperSaveFormset (formset : Formset)
  | CreateFromOptions (product : ModelObj)
      (options : list (string * list string))
  | ManageEmpty (product : ModelObj)
  | SetDefaultImages (product : ModelObj)
      (deleted_image_ids : list (option string))
  | CopyDefaultVariation (product : ModelObj).

#[global] Instance Event_eq_dec : EqDecision Event.
Proof. solve_decision. Defined.

(** The calls on [self._product.variations] and [self._product]. *)
Definition is_manager_call (e : Event) : bool :=
  match e with
  | SuperSaveModel _ | SuperSaveFormset _ => false
  | _ => true
  end.

(** ** Methods as runs

    A method of the admin, run on an instance, ends normally or raises,
    leaves the instance in a new state, and has issued calls. *)
Record Run (A : Type) := {
  outcome : result A;
  admin_after : ProductAdmin;
  calls : list Event
}.
Arguments outcome {A} r.
Arguments admin_after {A} r.
Arguments calls {A} r.

Definition M (A : Type) : Type := ProductAdmin → Run A.

#[global] Instance M_ret : MRet M := λ A a self,
  {| outcome := Ok a; admin_after := self; calls := [] |}.

#[global] Instance M_bind : MBind M := λ A B f m self,
  match m self with
  | {| outcome := Ok a; admin_after := self1; calls := calls1 |} =>
      match f a self1 with
      | {| outcome := o; admin_after := self2; calls := calls2 |} =>
          {| outcome := o; admin_after := self2; calls := calls1 ++ calls2 |}
      end
  | {| outcome := Raise e; admin_after := self1; calls := calls1 |} =>
      {| outcome := Raise e; admin_after := self1; calls := calls1 |}
  end.

Definition call (e : Event) : M unit := λ self,
  {| outcome := Ok (); admin_after := self; calls := [e] |}.

(** Reading an attribute that was never set raises [AttributeError]. *)
Definition getattr {A} (attr : string) (read : ProductAdmin → option A)
    : M A := λ self,
  {| outcome := match read self with
                | Some a => Ok a
                | None => Raise (AttributeError attr)
                end;
     admin_after := self; calls := [] |}.

Definition setattr (write : ProductAdmin → ProductAdmin) : M unit := λ self,
  {| outcome := Ok (); admin_after := write self; calls := [] |}.

(** ** [save_model] and [save_formset] *)

(** [[
def save_model(self, request, obj, form, change):
    super(ProductAdmin, self).save_model(request, obj, form, change)
    self._product = obj
]] *)
Definition save_model (request : HttpRequest) (obj : ModelObj) : M unit :=
  call (SuperSaveModel obj);;
  setattr (λ self, set_product self obj).

(** [[
def save_formset(self, request, form, formset, change):
    if formset.model == ProductImage:
        self._images_formset = formset
    else:
        super(ProductAdmin, self).save_formset(request, form, formset,
                                               change)
    if formset.model == ProductVariation:
        options = ...
        deleted_images = ...
        self._product.variations.create_from_options(options)
        self._product.variations.manage_empty()
        self._product.variations.set_default_images(deleted_images)
        super(ProductAdmin, self).save_formset(request, form,
                                               self._images_formset, change)
        self._product.variations.set_default_images(deleted_images)
        self._product.copy_default_variation()
]] *)
Definition save_formset (option_fields : list string) (request : HttpRequest)
    (formset : Formset) : M unit :=
  (if decide (formset_model formset = ProductImage)
   then setattr (λ self, set_images_formset self formset)
   else call (SuperSaveFormset formset));;
  if decide (formset_model formset = ProductVariation)
  then
    let options := selected_options option_fields request in
    let deleted_images := deleted_images request in
    product ← getattr "_product" _product;
    call (CreateFromOptions product options);;
    product ← getattr "_product" _product;
    call (ManageEmpty product);;
    product ← getattr "_product" _product;
    call (SetDefaultImages product deleted_images);;
    images_formset ← getattr "_images_formset" _images_formset;
    call (SuperSaveFormset images_formset);;
    product ← getattr "_product" _product;
    call (SetDefaultImages product deleted_images);;
    product ← getattr "_product" _product;
    call (CopyDefaultVariation product)
  else mret ().

(** One save of a product through the change form: the framework calls
    [save_model] and then [save_formset] with each inline's formset, in
    the order of [ProductAdmin.inlines]. *)
Fixpoint save_formsets (option_fields : list string) (request : HttpRequest)
    (formsets : list Formset) : M unit :=
  match formsets with
  | [] => mret ()
  | formset :: rest =>
      save_formset option_fields request formset;;
      save_formsets option_fields request rest
  end.

(** One save of a product: [save_model], then [save_formset] for each
    formset the framework passes.  The change form passes the formsets of
    the inlines the user may edit, images before variations; the change
    list passes none. *)
Definition save_product (option_fields : list string) (request : HttpRequest)
    (obj : ModelObj) (formsets : list Formset) : M unit :=
  save_model request obj;;
  save_formsets option_fields request formsets.

(** ** [in_menu] and [change_view] *)

(** [[
def in_menu(self):
    return self.model is Product
]] *)
Definition in_menu (self : ProductAdmin) : bool :=
  bool_decide (model self = Product).

(** What [change_view] reads outside the module.  [find_product] is the
    lookup [Product.objects.get(pk=object_id)] behind [get_object_or_404]:
    it gives the product with the key, or none when there is no such
    product ([DoesNotExist]), or raises an exception of its own, as it
    does with [ValueError] for a key that is no number.
    [get_content_model] gives the instance of the product's subclass,
    when it has one; [admin_url] the URL of an admin page. *)
Record Site := {
  find_product : string → result (option ModelObj);
  get_content_model : ModelObj → option ModelObj;
  admin_url : ModelClass → string → nat → string
}.

(** [get_object_or_404(Product, pk=object_id)] of the framework: a lookup
    that finds nothing raises [Http404]; any other exception of the
    lookup is passed on. *)
Definition get_object_or_404 (site : Site) (object_id : string)
    : result ModelObj :=
  match find_product site object_id with
  | Ok (Some product) => Ok product
  | Ok None => Raise Http404
  | Raise e => Raise e
  end.

(** [change_view] answers with a redirect or hands over to the change
    view of the framework. *)
Inductive Response :=
  | HttpResponseRedirect (url : string)
  | SuperChangeView (object_id : string).

(** [[
def change_view(self, request, object_id, extra_context=None):
    if self.model is Product:
        product = get_object_or_404(Product, pk=object_id)
        content_model = product.get_content_model()
        if content_model is not None:
            change_url = admin_url(content_model.__class__, "change",
                                   content_model.id)
            return HttpResponseRedirect(change_url)
    return super(ProductAdmin, self).change_view(request, object_id,
                                                 extra_context=extra_context)
]] *)
Definition change_view (site : Site) (self : ProductAdmin)
    (object_id : string) : result Response :=
  if decide (model self = Product)
  then
    match get_object_or_404 site object_id with
    | Raise e => Raise e
    | Ok product =>
        match get_content_model site product with
        | Some content_model =>
            let change_url :=
              admin_url site (obj_class content_model) "change"
                (obj_id content_model) in
            Ok (HttpResponseRedirect change_url)
        | None => Ok (SuperChangeView object_id)
        end
    end
  else Ok (SuperChangeView object_id).

(** ** The database behind the calls

    A backend gives every call its effect on a state [W] of the database;
    a call that raises in the framework or in the models, or that the
    backend does not describe, gives no state.  The observations are what
    the properties of a product save speak of: how many variations the
    product has, which image each of them refers to, the price fields of
    the product and those of its default variation. *)
Record Backend (W Prices : Type) := {
  super_save_model : ModelObj → W → option W;
  super_save_formset : Formset → W → option W;
  create_from_options :
    ModelObj → list (string * list string) → W → option W;
  manage_empty : ModelObj → W → option W;
  set_default_images : ModelObj → list (option string) → W → option W;
  copy_default_variation : ModelObj → W → option W;
  variation_count : ModelObj → W → nat;
  variation_images : ModelObj → W → list (option string);
  product_prices : ModelObj → W → Prices;
  default_variation_prices : ModelObj → W → option Prices
}.
Arguments super_save_model {W Prices} b.
Arguments super_save_formset {W Prices} b.
Arguments create_from_options {W Prices} b.
Arguments manage_empty {W Prices} b.
Arguments set_default_images {W Prices} b.
Arguments copy_default_variation {W Prices} b.
Arguments variation_count {W Prices} b.
Arguments variation_images {W Prices} b.
Arguments product_prices {W Prices} b.
Arguments default_variation_prices {W Prices} b.

Definition run_event {W Prices} (b : Backend W Prices) (e : Event) (w : W)
    : option W :=
  match e with
  | SuperSaveModel obj => super_save_model b obj w
  | SuperSaveFormset formset => super_save_formset b formset w
  | CreateFromOptions product options => create_from_options b product options w
  | ManageEmpty product => manage_empty b product w
  | SetDefaultImages product ids => set_default_images b product ids w
  | CopyDefaultVariation product => copy_default_variation b product w
  end.

(** The calls of a trace, one after the other; the first that gives no
    state ends the run. *)
Fixpoint run_trace {W Prices} (b : Backend W Prices) (trace : list Event)
    (w : W) : option W :=
  match trace with
  | [] => Some w
  | e :: rest => run_event b e w ≫= run_trace b rest
  end.

(** Modelled from the spec: the variation manager's [manage_empty] and
    [set_default_images] and the product's [copy_default_variation] are
    defined with the models, outside this module.  The contract states of
    each what its step of the save order says, and nothing else.
    Step 3, "ensure at least one variation record exists for the
    product": after [manage_empty] the product has a variation.
    Step 4, "remove references to any images the administrator marked
    for deletion from the variations that reference them": after
    [set_default_images] no variation refers to one of the ids it was
    given.  Step 7, "copy the designated default variation's price fields
    onto the parent product record": after [copy_default_variation] the
    price fields of the product are those of the default variation. *)
Record ManagerContract {W Prices} (b : Backend W Prices) : Prop := {
  manage_empty_ensures : ∀ p w w',
    manage_empty b p w = Some w' → 1 ≤ variation_count b p w';
  set_default_images_unrefs : ∀ p ids w w',
    set_default_images b p ids w = Some w' →
    ∀ id, Some id ∈ ids → Some id ∉ variation_images b p w';
  copy_default_variation_copies : ∀ p w w' prices,
    copy_default_variation b p w = Some w' →
    default_variation_prices b p w' = Some prices →
    product_prices b p w' = prices
}.


(** *** A database of one product *)

Module Shop.

(** The price fields; a variation created without prices has none. *)
Record Prices := {
  unit_price : option nat;
  sale_price : option nat
}.

Record Variation := {
  default : bool;
  prices : Prices;
  image : option string
}.

Record World := {
  product : Prices;
  variations : list Variation;
  images : list string
}.

Definition with_variations (w : World) (vs : list Variation) : World :=
  {| product := product w; variations := vs; images := images w |}.

Definition is_default (v : Variation) : Prop := default v = true.

#[global] Instance is_default_dec v : Decision (is_default v).
Proof. unfold is_default. apply _. Defined.

(** Modelled from the spec: [manage_empty] of the variation manager, not
    in this module.  "Ensure at least one variation record exists for the
    product (create a default if none exist)."  The spec gives the
    created variation no prices and no image. *)
Definition manage_empty (w : World) : World :=
  match variations w with
  | [] => with_variations w
            [ {| default := true;
                 prices := {| unit_price := None; sale_price := None |};
                 image := None |} ]
  | _ :: _ => w
  end.

(** Modelled from the spec: [set_default_images] of the variation
    manager, not in this module.  "Remove references to any images the
    administrator marked for deletion from the variations that reference
    them, and assign a default image to any variation lacking one."  The
    default is the first image of the product that is not marked. *)
Definition set_default_images (ids : list (option string)) (w : World)
    : World :=
  let candidate := head (filter (λ i, Some i ∉ ids) (images w)) in
  let unref (v : Variation) :=
    {| default := default v; prices := prices v;
       image := match image v with
                | Some i =>
                    if decide (Some i ∈ ids) then candidate else Some i
                | None => candidate
                end |} in
  with_variations w (unref <$> variations w).

(** Modelled from the spec: the save of the images formset by the
    framework.  "Save the image edits submitted by the administrator":
    the images marked for deletion are deleted.  Uploads and changes of
    an image are not described. *)
Definition save_images (ids : list (option string)) (w : World) : World :=
  {| product := product w; variations := variations w;
     images := filter (λ i, Some i ∉ ids) (images w) |}.

(** Modelled from the spec: [copy_default_variation] of the product, not
    in this module.  "Copy the designated default variation's price fields
    onto the parent product record."  Without a default variation there
    is none to copy from, and the model gives no state. *)
Definition copy_default_variation (w : World) : option World :=
  match filter is_default (variations w) with
  | v :: _ =>
      Some {| product := prices v; variations := variations w;
              images := images w |}
  | [] => None
  end.

End Shop.

(** The backend of that database, for the save of one request in which
    the administrator marks images for deletion and changes nothing
    else.  The save of the product and of the variations formset then
    leave the database as it is, and the save of the images formset
    deletes the marked images.  With no option selected
    [create_from_options] has no combination to create a variation for;
    which variations a selection creates is decided by the models, and
    the backend gives no state for it. *)
Definition shop_backend (request : HttpRequest)
    : Backend Shop.World Shop.Prices :=
  {| super_save_model := λ _ w, Some w;
     super_save_formset := λ formset w,
       if decide (formset_model formset = ProductImage)
       then Some (Shop.save_images (deleted_images request) w)
       else Some w;
     create_from_options := λ _ options w,
       if decide (options = []) then Some w else None;
     manage_empty := λ _ w, Some (Shop.manage_empty w);
     set_default_images := λ _ ids w, Some (Shop.set_default_images ids w);
     copy_default_variation := λ _ w, Shop.copy_default_variation w;
     variation_count := λ _ w, length (Shop.variations w);
     variation_images := λ _ w, Shop.image <$> Shop.variations w;
     product_prices := λ _ w, Shop.product w;
     default_variation_prices := λ _ w,
       Shop.prices <$> head (filter Shop.is_default (Shop.variations w)) |}.

(** ** A sample shop

    The inputs the statements below are tried on: the fieldsets of the
    framework's [DisplayableAdmin], a request that selects two colours
    and marks the first image for deletion, the two inline formsets, and
    a product with one variation that refers to that image. *)
Module Sample.

Definition settings : Settings :=
  {| SHOP_USE_VARIATIONS := true;
     SHOP_USE_RELATED_PRODUCTS := true;
     SHOP_USE_UPSELL_PRODUCTS := false |}.

Definition option_fields : list string := ["option1"; "option2"].

Definition displayable : list Fieldset :=
  [ {| fs_title := None;
       fs_fields := [ Field "title"; Field "status";
                      Group ["publish_date"; "expiry_date"] ];
       fs_classes := None |};
    {| fs_title := Some "Meta data";
       fs_fields := [ Field "_meta_title"; Field "slug";
                      Group ["description"; "gen_description"];
                      Field "keywords"; Field "in_sitemap" ];
       fs_classes := Some ["collapse-closed"] |} ].

Definition request : HttpRequest :=
  {| POST := [ ("title", ["Stove"]);
               ("option1", ["Red"; "Black"]);
               ("option2", []);
               ("images-0-id", ["7"]);
               ("images-0-DELETE", ["on"]);
               ("images-1-id", ["8"]) ] |}.

Definition images : Formset :=
  {| formset_model := ProductImage; formset_prefix := "images" |}.

Definition variations : Formset :=
  {| formset_model := ProductVariation; formset_prefix := "variations" |}.

Definition stove : ModelObj := {| obj_class := Product; obj_id := 1 |}.

Definition stone : ModelObj := {| obj_class := ProductStone; obj_id := 1 |}.

(** The admin registered for [Product], as the framework creates it. *)
Definition admin : ProductAdmin :=
  {| model := Product;
     admin_class_fieldsets := [];
     admin_fieldsets := None;
     exclude := None;
     form_meta_exclude := None;
     _product := None;
     _images_formset := None |}.

(** A request that marks the first image for deletion and selects no
    option. *)
Definition delete_request : HttpRequest :=
  {| POST := [ ("title", ["Stove"]);
               ("images-0-id", ["7"]);
               ("images-0-DELETE", ["on"]);
               ("images-1-id", ["8"]) ] |}.

Definition world : Shop.World :=
  {| Shop.product := {| Shop.unit_price := None; Shop.sale_price := None |};
     Shop.variations :=
       [ {| Shop.default := true;
            Shop.prices := {| Shop.unit_price := Some 120;
                              Shop.sale_price := Some 99 |};
            Shop.image := Some "7" |} ];
     Shop.images := ["7"; "8"] |}.

(** A site with the stove as product 1, which is a stone; a key that is
    no number makes the lookup raise. *)
Definition site : Site :=
  {| find_product := λ object_id,
       if decide (object_id = "1") then Ok (Some stove)
       else if bool_decide (object_id ≠ "") && all_digits object_id
       then Ok None
       else Raise ValueError;
     get_content_model := λ product,
       if decide (product = stove) then Some stone else None;
     admin_url := λ cls action id,
       "/admin/shop/"
       +:+ (if decide (cls = ProductStone) then "productstone" else "product")
       +:+ "/" +:+ action +:+ "/" |}.

(** The fields of [Product] and of its subclass [ProductStone], which
    adds a colour, a weight and a field that is not editable. *)
Definition product_meta_fields : list ModelField :=
  [ {| f_name := "id"; f_editable := true |};
    {| f_name := "title"; f_editable := true |};
    {| f_name := "status"; f_editable := true |};
    {| f_name := "available"; f_editable := true |};
    {| f_name := "unit_price"; f_editable := true |} ].

Definition meta_fields (m : ModelClass) : list ModelField :=
  match m with
  | ProductStone =>
      product_meta_fields
      ++ [ {| f_name := "product_ptr"; f_editable := true |};
           {| f_name := "colour"; f_editable := true |};
           {| f_name := "quarried"; f_editable := false |};
           {| f_name := "weight"; f_editable := true |} ]
  | _ => product_meta_fields
  end.

(** The product fieldsets the module computes from these settings. *)
Definition product_fieldsets_value : list Fieldset :=
  match product_fieldsets settings option_fields displayable with
  | Ok value => value
  | Raise _ => []
  end.

(** The store once the module is loaded: it holds the lists of the
    product fieldsets, which are [ProductAdmin.fieldsets]. *)
Definition loaded : list FieldsetRef * store :=
  store_fieldsets product_fieldsets_value ∅.

Definition ProductAdmin_fieldsets : list FieldsetRef := loaded.1.

Definition store : store := loaded.2.

(** The admin registered for [ProductStone] with the class
    [ProductAdmin], before [__init__] has run. *)
Definition stone_admin : ProductAdmin :=
  {| model := ProductStone;
     admin_class_fieldsets := ProductAdmin_fieldsets;
     admin_fieldsets := None;
     exclude := None;
     form_meta_exclude := None;
     _product := None;
     _images_formset := None |}.

End Sample.

(** ** The other lists of the admin classes *)

(** [list_display_links = ("admin_thumb", "title")] of [ProductAdmin]. *)
Definition ProductAdmin_list_display_links : list string :=
  ["admin_thumb"; "title"].

(** [filter_horizontal = ("categories",) + tuple(other_product_fields)] *)
Definition ProductAdmin_filter_horizontal (settings : Settings)
    : list string :=
  ["categories"] ++ other_product_fields settings.

(** The field names a list of fieldsets shows, in order. *)
Definition fieldset_names (fsets : list Fieldset) : list string :=
  fsets ≫= (λ f, flatten (fs_fields f)).

(** ** Category fieldsets *)

(** [fsets[i][1]["fields"]] changed in place by [g]; an index outside the
    list raises. *)
Definition update_fields (i : nat)
    (g : list FieldEntry → list FieldEntry) (fsets : list Fieldset)
    : result (list Fieldset) :=
  match fsets !! i with
  | Some f => Ok (<[i := with_fields f (g (fs_fields f))]> fsets)
  | None => Raise IndexError
  end.

Definition category_fields : list FieldEntry :=
  [ Field "content"; Field "show_content"; Field "products";
    Field "use_grouped_products" ].

Definition product_filters_fieldset : Fieldset :=
  {| fs_title := Some "Product filters";
     fs_fields := [ Field "sale"; Group ["price_min"; "price_max"];
                    Field "combined" ];
     fs_classes := Some ["collapse-closed"] |}.

(** [[
category_fieldsets = deepcopy(PageAdmin.fieldsets)
category_fieldsets[0][1]["fields"][3:3] = ["content", "show_content",
                                           "products", "use_grouped_products"]
category_fieldsets += ((_("Product filters"), {
    "fields": ("sale", ("price_min", "price_max"), "combined"),
    "classes": ("collapse-closed",)},),)
if settings.SHOP_CATEGORY_USE_FEATURED_IMAGE:
    category_fieldsets[0][1]["fields"].insert(3, "featured_image")
if settings.SHOP_USE_VARIATIONS:
    category_fieldsets[-1][1]["fields"] = (("options",) +
                                           category_fieldsets[-1][1]["fields"])
]]
    [page] is the value of [PageAdmin.fieldsets], defined outside the
    module; index [-1] is the last index.  The setting
    [SHOP_CATEGORY_USE_FEATURED_IMAGE] is read here only and is passed on
    its own. *)
Definition category_fieldsets (SHOP_CATEGORY_USE_FEATURED_IMAGE : bool)
    (settings : Settings) (page : list Fieldset) : result (list Fieldset) :=
  match update_fields 0 (Py.slice_assign 3 3 category_fields) page with
  | Raise e => Raise e
  | Ok category_fieldsets =>
      let category_fieldsets :=
        category_fieldsets ++ [product_filters_fieldset] in
      match
        if SHOP_CATEGORY_USE_FEATURED_IMAGE
        then update_fields 0 (Py.insert 3 (Field "featured_image"))
               category_fieldsets
        else Ok category_fieldsets
      with
      | Raise e => Raise e
      | Ok category_fieldsets =>
          if SHOP_USE_VARIATIONS settings
          then update_fields (length category_fieldsets - 1)
                 (λ fields, Field "options" :: fields) category_fieldsets
          else Ok category_fieldsets
      end
  end.

(** ** The fieldsets of the product subclasses *)

(** [[
portal_fieldsets = deepcopy(ProductAdmin.fieldsets)
portal_fieldsets[0][1]["fields"][3:3] = ["overall_height", ...]
]]
    and the same for the facing, the hearth and the topka: a copy of the
    fieldsets of [ProductAdmin] with the fields of the subclass put at
    index 3 of the first fieldset. *)
Definition extended_fieldsets (extra : list string)
    (ProductAdmin_fieldsets : list FieldsetRef) (σ : store)
    : result (list FieldsetRef * store) :=
  let '(copy, σ1) := deepcopy ProductAdmin_fieldsets σ in
  match copy with
  | [] => Raise IndexError
  | first :: _ =>
      Ok (copy,
          alter (Py.slice_assign 3 3 (Field <$> extra)) (r_fields first) σ1)
  end.

Definition portal_fields : list string :=
  [ "overall_height"; "overall_width"; "overall_depth"; "materials";
    "suitable_topka"; "suitable_hearth" ].

Definition facing_fields : list string :=
  [ "overall_height"; "overall_width"; "overall_depth"; "materials";
    "mass"; "type"; "suitable_hearth"; "suitable_topka" ].

Definition hearth_fields : list string :=
  [ "power"; "overall_height"; "overall_width"; "overall_depth";
    "inst_height"; "inst_width"; "inst_depth"; "type"; "rc"; "heating";
    "suitable_portals"; "suitable_faces" ].

Definition topka_fields : list string :=
  [ "power"; "mass"; "diam"; "height"; "width"; "depth"; "performance";
    "fuel"; "water"; "lift"; "shutter"; "glass"; "suitable_portals";
    "suitable_faces" ].

Definition portal_fieldsets := extended_fieldsets portal_fields.
Definition facing_fieldsets := extended_fieldsets facing_fields.
Definition hearth_fieldsets := extended_fieldsets hearth_fields.
Definition topka_fieldsets := extended_fieldsets topka_fields.

(** [filter_horizontal] of the four subclass admins:
    [tuple(deepcopy(ProductAdmin.filter_horizontal)) + (...)]. *)
Definition ProductPortalAdmin_filter_horizontal (settings : Settings)
    : list string :=
  ProductAdmin_filter_horizontal settings
  ++ ["suitable_topka"; "suitable_hearth"].

Definition ProductFacingAdmin_filter_horizontal (settings : Settings)
    : list string :=
  ProductAdmin_filter_horizontal settings
  ++ ["suitable_hearth"; "suitable_topka"].

Definition ProductHearthAdmin_filter_horizontal (settings : Settings)
    : list string :=
  ProductAdmin_filter_horizontal settings
  ++ ["suitable_portals"; "suitable_faces"].

Definition ProductTopkaAdmin_filter_horizontal (settings : Settings)
    : list string :=
  ProductAdmin_filter_horizontal settings
  ++ ["suitable_portals"; "suitable_faces"].

(** ** Registration *)

Module Registry.

(** The admin classes of the module. *)
Inductive AdminClass :=
  | CategoryAdmin | ProductAdmin | ProductOptionAdmin | OrderAdmin
  | SaleAdmin | DiscountCodeAdmin
  | ProductPortalAdmin | ProductFacingAdmin | ProductHearthAdmin
  | ProductTopkaAdmin.

#[global] Instance AdminClass_eq_dec : EqDecision AdminClass.
Proof. solve_decision. Defined.

(** The classes that are [ProductAdmin] or derive from it. *)
Definition is_ProductAdmin (a : AdminClass) : bool :=
  match a with
  | ProductAdmin | ProductPortalAdmin | ProductFacingAdmin
  | ProductHearthAdmin | ProductTopkaAdmin => true
  | _ => false
  end.

(** [admin.site.register(model, admin_class)]: the framework refuses a
    model that is registered already. *)
Definition register (model : ModelClass) (admin : AdminClass)
    (registry : list (ModelClass * AdminClass))
    : option (list (ModelClass * AdminClass)) :=
  if decide (model ∈ registry.*1) then None
  else Some (registry ++ [(model, admin)]).

Fixpoint register_all (calls : list (ModelClass * AdminClass))
    (registry : list (ModelClass * AdminClass))
    : option (list (ModelClass * AdminClass)) :=
  match calls with
  | [] => Some registry
  | (model, admin) :: rest =>
      register model admin registry ≫= register_all rest
  end.

End Registry.

(** [[
admin.site.register(Category, CategoryAdmin)
admin.site.register(Product, ProductAdmin)
if settings.SHOP_USE_VARIATIONS:
    admin.site.register(ProductOption, ProductOptionAdmin)
admin.site.register(Order, OrderAdmin)
...
admin.site.register(ProductStone, ProductAdmin)
]] *)
Definition registrations (settings : Settings)
    : list (ModelClass * Registry.AdminClass) :=
  [ (Category, Registry.CategoryAdmin);
    (Product, Registry.ProductAdmin) ]
  ++ (if SHOP_USE_VARIATIONS settings
      then [(ProductOption, Registry.ProductOptionAdmin)] else [])
  ++ [ (Order, Registry.OrderAdmin);
       (Sale, Registry.SaleAdmin);
       (DiscountCode, Registry.DiscountCodeAdmin);
       (ProductTopka, Registry.ProductTopkaAdmin);
       (ProductHearth, Registry.ProductHearthAdmin);
       (ProductPortal, Registry.ProductPortalAdmin);
       (ProductFacing, Registry.ProductFacingAdmin);
       (ProductStone, Registry.ProductAdmin) ].

(** The admin the framework creates for a registration, before
    [__init__] has run: none of the attributes of an instance is set. *)
Definition new_admin (m : ModelClass) (class_fieldsets : list FieldsetRef)
    : ProductAdmin :=
  {| model := m;
     admin_class_fieldsets := class_fieldsets;
     admin_fieldsets := None;
     exclude := None;
     form_meta_exclude := None;
     _product := None;
     _images_formset := None |}.

(** The value of fieldsets with the names [extra] put at index 3 of the
    first fieldset. *)
Definition with_extra_fields (extra : list string) (value : list Fieldset)
    : list Fieldset :=
  match value with
  | [] => []
  | first :: tail =>
      with_fields first
        (take 3 (fs_fields first) ++ (Field <$> extra)
         ++ drop 3 (fs_fields first))
      :: tail
  end.

(** ** The module, loaded

    The fieldsets the module leaves behind when it is loaded, and the
    admins the framework creates for the registrations. *)
Record ModuleFieldsets := {
  m_category : list Fieldset;
  m_product : list FieldsetRef;
  m_portal : list FieldsetRef;
  m_facing : list FieldsetRef;
  m_hearth : list FieldsetRef;
  m_topka : list FieldsetRef
}.

(** The module's statements on fieldsets, in their order:
    [category_fieldsets], [product_fieldsets], then the four copies for
    the subclasses; the first that raises ends the load.  The category
    fieldsets are a copy only [CategoryAdmin] refers to, and are held as
    a value; the product fieldsets are shared, and go to the store. *)
Definition load_fieldsets (SHOP_CATEGORY_USE_FEATURED_IMAGE : bool)
    (settings : Settings) (option_fields : list string)
    (page displayable : list Fieldset) (σ : store)
    : result (ModuleFieldsets * store) :=
  match category_fieldsets SHOP_CATEGORY_USE_FEATURED_IMAGE settings page with
  | Raise e => Raise e
  | Ok category =>
  match product_fieldsets settings option_fields displayable with
  | Raise e => Raise e
  | Ok value =>
      let '(product, σ) := store_fieldsets value σ in
      match portal_fieldsets product σ with
      | Raise e => Raise e
      | Ok (portal, σ) =>
          match facing_fieldsets product σ with
          | Raise e => Raise e
          | Ok (facing, σ) =>
              match hearth_fieldsets product σ with
              | Raise e => Raise e
              | Ok (hearth, σ) =>
                  match topka_fieldsets product σ with
                  | Raise e => Raise e
                  | Ok (topka, σ) =>
                      Ok ({| m_category := category;
                             m_product := product; m_portal := portal;
                             m_facing := facing; m_hearth := hearth;
                             m_topka := topka |}, σ)
                  end
              end
          end
      end
  end
  end.

(** The [fieldsets] attribute of the classes that derive from
    [ProductAdmin]. *)
Definition class_fieldsets (m : ModuleFieldsets) (a : Registry.AdminClass)
    : list FieldsetRef :=
  match a with
  | Registry.ProductPortalAdmin => m_portal m
  | Registry.ProductFacingAdmin => m_facing m
  | Registry.ProductHearthAdmin => m_hearth m
  | Registry.ProductTopkaAdmin => m_topka m
  | _ => m_product m
  end.

(** [admin.site.register] creates the admin: for a class that derives
    from [ProductAdmin] this runs [__init__]. *)
Fixpoint create_admins (meta_fields : ModelClass → list ModelField)
    (m : ModuleFieldsets) (calls : list (ModelClass * Registry.AdminClass))
    (σ : store) : result (list ProductAdmin * store) :=
  match calls with
  | [] => Ok ([], σ)
  | (model, a) :: rest =>
      if Registry.is_ProductAdmin a
      then
        match __init__ (m_product m) meta_fields
                (new_admin model (class_fieldsets m a)) σ with
        | Raise e => Raise e
        | Ok (self, σ') =>
            match create_admins meta_fields m rest σ' with
            | Raise e => Raise e
            | Ok (admins, σ'') => Ok (self :: admins, σ'')
            end
        end
      else create_admins meta_fields m rest σ
  end.

(** * Properties *)

(** ** [address_pairs] *)

Section address_pairs.

(** Induction over a list two elements at a time. *)
Lemma list_pair_ind {A} (P : list A → Prop) :
  P [] → (∀ a, P [a]) → (∀ a b l, P l → P (a :: b :: l)) → ∀ l, P l.
Proof.
  intros Hnil Hone Hstep l.
  cut (P l ∧ ∀ a, P (a :: l)); [tauto |].
  induction l as [| b l [IH1 IH2]]; split; auto.
Qed.

Lemma slice_even_cons2 {A} (a b : A) l :
  Py.slice_step 0 2 (a :: b :: l) = a :: Py.slice_step 0 2 l.
Proof. reflexivity. Qed.

Lemma slice_odd_cons2 {A} (a b : A) l :
  Py.slice_step 1 2 (a :: b :: l) = b :: Py.slice_step 1 2 l.
Proof. reflexivity. Qed.

Lemma length_mod2_cons2 {A} (a b : A) l :
  length (a :: b :: l) `mod` 2 = length l `mod` 2.
Proof.
  cbn [length].
  replace (S (S (length l))) with (length l + 1 * 2) by lia.
  apply Nat.Div0.mod_add.
Qed.

Lemma address_pairs_cons2 a b fields :
  address_pairs (a :: b :: fields) = Group [a; b] :: address_pairs fields.
Proof.
  unfold address_pairs.
  rewrite slice_even_cons2, slice_odd_cons2, length_mod2_cons2.
  destruct (decide (length fields `mod` 2 = 0)) as [Heven | Hodd]; [done |].
  destruct fields as [| c fields]; [done |].
  change (last (a :: b :: c :: fields)) with (last (c :: fields)).
  by destruct (last (c :: fields)).
Qed.

(** The code computes what the docstring describes. *)
Lemma address_pairs_pair_up fields : address_pairs fields = pair_up fields.
Proof.
  induction fields as [| a | a b fields IH] using list_pair_ind;
    [done | done |].
  by rewrite address_pairs_cons2, IH.
Qed.

Lemma flatten_pair_up fields : flatten (pair_up fields) = fields.
Proof.
  induction fields as [| a | a b fields IH] using list_pair_ind;
    [done | done |].
  unfold flatten in *. cbn. by rewrite IH.
Qed.

Lemma length_pair_up fields :
  length (pair_up fields) = (length fields + 1) / 2.
Proof.
  induction fields as [| a | a b fields IH] using list_pair_ind;
    [done | done |].
  cbn [pair_up length]. rewrite IH.
  replace (S (S (length fields)) + 1) with (length fields + 1 + 1 * 2) by lia.
  rewrite Nat.div_add by lia. lia.
Qed.

Lemma lookup_pair_up fields i :
  2 * i + 1 < length fields →
  ∃ a b, fields !! (2 * i) = Some a ∧ fields !! (2 * i + 1) = Some b
         ∧ pair_up fields !! i = Some (Group [a; b]).
Proof.
  revert i.
  induction fields as [| a | a b fields IH] using list_pair_ind; intros i Hi.
  - cbn in Hi. lia.
  - cbn in Hi. lia.
  - destruct i as [| i].
    + by exists a, b.
    + cbn [length] in Hi.
      destruct (IH i) as (x & y & Hx & Hy & Hxy); [lia |].
      exists x, y.
      replace (2 * S i) with (S (S (2 * i))) by lia.
      replace (S (S (2 * i)) + 1) with (S (S (2 * i + 1))) by lia.
      done.
Qed.

Lemma last_pair_up fields :
  length fields `mod` 2 = 1 →
  ∃ x, last fields = Some x
       ∧ pair_up fields !! (length fields / 2) = Some (Field x)
       ∧ last (pair_up fields) = Some (Field x).
Proof.
  induction fields as [| a | a b fields IH] using list_pair_ind; intros Hodd.
  - done.
  - by exists a.
  - rewrite length_mod2_cons2 in Hodd.
    destruct (IH Hodd) as (x & Hlast & Hlookup & Hlast').
    exists x.
    destruct fields as [| c fields]; [done |].
    split; [done |]. split.
    + replace (length (a :: b :: c :: fields))
        with (length (c :: fields) + 1 * 2) by (cbn; lia).
      rewrite Nat.div_add by lia.
      by rewrite Nat.add_1_r.
    + change (pair_up (a :: b :: c :: fields))
        with (Group [a; b] :: pair_up (c :: fields)).
      by rewrite last_cons, Hlast'.
Qed.

Lemma pair_up_all_groups fields :
  length fields `mod` 2 = 0 →
  ∀ e, e ∈ pair_up fields → ∃ a b, e = Group [a; b].
Proof.
  induction fields as [| a | a b fields IH] using list_pair_ind;
    intros Heven e He.
  - by apply elem_of_nil in He.
  - done.
  - rewrite length_mod2_cons2 in Heven.
    cbn [pair_up] in He. apply elem_of_cons in He as [-> | He]; eauto.
Qed.

End address_pairs.

(** C8.  For every list of fields, [address_pairs] returns the pairs of
    consecutive fields [(fields[0], fields[1])], [(fields[2], fields[3])],
    ...; when the length is odd the last field follows, unpaired, as the
    last entry; the names of the result, read in order, are the input;
    and for [n] fields the result has [ceil(n / 2)] entries. *)
Theorem address_pairs_spec (fields : list string) :
  (∀ i, 2 * i + 1 < length fields →
     ∃ a b, fields !! (2 * i) = Some a ∧ fields !! (2 * i + 1) = Some b
            ∧ address_pairs fields !! i = Some (Group [a; b]))
  ∧ (length fields `mod` 2 = 1 →
     ∃ x, last fields = Some x
          ∧ address_pairs fields !! (length fields / 2) = Some (Field x)
          ∧ last (address_pairs fields) = Some (Field x))
  ∧ (length fields `mod` 2 = 0 →
     ∀ e, e ∈ address_pairs fields → ∃ a b, e = Group [a; b])
  ∧ flatten (address_pairs fields) = fields
  ∧ length (address_pairs fields) = (length fields + 1) / 2
  ∧ 2 * length (address_pairs fields) = length fields + length fields `mod` 2.
Proof.
  rewrite address_pairs_pair_up.
  split; [apply lookup_pair_up |].
  split; [apply last_pair_up |].
  split; [apply pair_up_all_groups |].
  split; [apply flatten_pair_up |].
  split; [apply length_pair_up |].
  rewrite length_pair_up.
  pose proof (Nat.div_mod_eq (length fields) 2) as Hdiv.
  pose proof (Nat.mod_upper_bound (length fields) 2) as Hmod.
  destruct (decide (length fields `mod` 2 = 0)) as [H0 | H1].
  - rewrite H0 in *.
    replace (length fields + 1) with (1 + length fields / 2 * 2) by lia.
    rewrite Nat.div_add by lia. change (1 / 2) with 0. lia.
  - assert (length fields `mod` 2 = 1) as H1' by lia. rewrite H1' in *.
    replace (length fields + 1) with (0 + (length fields / 2 + 1) * 2) by lia.
    rewrite Nat.div_add by lia. change (0 / 2) with 0. lia.
Qed.

Example address_pairs_five :
  address_pairs ["a"; "b"; "c"; "d"; "e"]
  = [Group ["a"; "b"]; Group ["c"; "d"]; Field "e"].
Proof. reflexivity. Qed.

(** ** The configuration under [SHOP_USE_VARIATIONS] *)

Section configuration.

Context (settings : Settings) (option_fields : list string).

(** The fieldsets before the section for new variations is inserted:
    those of the framework, the first with the product's fields, and
    the section of the other products when there are any. *)
Lemma product_fieldsets_shape first others :
  ∃ tail,
    (∀ f, f ∈ tail → f ∈ others ∨ f = other_products_fieldset settings)
    ∧ product_fieldsets settings option_fields (first :: others)
      = Ok (let first' :=
              with_fields first
                (Py.insert 3 (Field "manufacturer")
                   (Py.insert 2 (Field "available") (fs_fields first))
                 ++ [Field "content"; Field "categories"]) in
            if SHOP_USE_VARIATIONS settings
            then first' :: create_variations_fieldset option_fields :: tail
            else first' :: tail).
Proof.
  unfold product_fieldsets.
  destruct (decide (0 < length (other_product_fields settings))).
  - exists (others ++ [other_products_fieldset settings]). split.
    + intros f [Hf | Hf%list_elem_of_singleton]%elem_of_app; auto.
    + by destruct (SHOP_USE_VARIATIONS settings).
  - exists others. split; [auto |].
    by destruct (SHOP_USE_VARIATIONS settings).
Qed.

End configuration.

(** C5.  With [SHOP_USE_VARIATIONS] set, the product fieldsets have the
    section "Create new variations" listing the option fields, the
    variation inline has the field "default" and no maximum number of
    rows, and the change list shows and edits no price fields.  With the
    setting off, "sku", "unit_price", "sale_price" and "num_in_stock" are
    in both the change list's display and its editable fields, the
    variation inline has at most one row ([max_num = 1], [extra = 1]) and
    no field "default", and no section for new variations is added. *)
Theorem configuration_by_flag (settings : Settings)
    (option_fields : list string) (displayable : list Fieldset) :
  (SHOP_USE_VARIATIONS settings = true →
     (displayable ≠ [] →
        ∃ fsets section,
          product_fieldsets settings option_fields displayable = Ok fsets
          ∧ fsets !! 1 = Some section
          ∧ fs_title section = Some "Create new variations"
          ∧ fs_fields section = Field <$> option_fields
          ∧ flatten (fs_fields section) = option_fields)
     ∧ ProductVariationAdmin_fields settings
       = ["sku"; "default"; "num_in_stock"; "unit_price"; "currency";
          "sale_price"; "sale_from"; "sale_to"; "image"]
     ∧ "default" ∈ ProductVariationAdmin_fields settings
     ∧ ProductVariationAdmin_max_num settings = None
     ∧ ProductVariationAdmin_extra settings = 0
     ∧ product_list_display settings
       = ["admin_thumb"; "title"; "status"; "available"; "admin_link"]
     ∧ product_list_editable settings = ["status"; "available"])
  ∧ (SHOP_USE_VARIATIONS settings = false →
     product_list_display settings
     = ["admin_thumb"; "title"; "status"; "available";
        "sku"; "unit_price"; "sale_price"; "num_in_stock"; "admin_link"]
     ∧ product_list_editable settings
       = ["status"; "available";
          "sku"; "unit_price"; "sale_price"; "num_in_stock"]
     ∧ (∀ f, f ∈ ["sku"; "unit_price"; "sale_price"; "num_in_stock"] →
          f ∈ product_list_display settings
          ∧ f ∈ product_list_editable settings)
     ∧ ProductVariationAdmin_max_num settings = Some 1
     ∧ ProductVariationAdmin_extra settings = 1
     ∧ ProductVariationAdmin_fields settings
       = ["sku"; "num_in_stock"; "unit_price"; "currency";
          "sale_price"; "sale_from"; "sale_to"; "image"]
     ∧ ("default" ∉ ProductVariationAdmin_fields settings)
     ∧ (∀ fsets section,
          product_fieldsets settings option_fields displayable = Ok fsets →
          section ∈ fsets →
          fs_title section = Some "Create new variations" →
          ∃ section', section' ∈ displayable
                      ∧ fs_title section' = fs_title section)).
Proof.
  unfold ProductVariationAdmin_fields, ProductVariationAdmin_max_num,
    ProductVariationAdmin_extra, variation_fields, variations_max_num,
    variations_extra, product_list_display, product_list_editable.
  split; intros Hflag.
  - rewrite Hflag. repeat split; [| by right; left].
    intros Hne. destruct displayable as [| first others]; [done |].
    destruct (product_fieldsets_shape settings option_fields first others)
      as (tail & _ & ->).
    rewrite Hflag. eexists _, _. split; [done |]. split; [done |].
    repeat split.
    unfold flatten. cbn.
    induction option_fields as [| f fs IH]; [done |]. cbn. by f_equal.
  - rewrite Hflag. split; [done |]. split; [done |].
    split.
    { intros f Hf. rewrite !elem_of_cons in Hf.
      destruct Hf as [-> | [-> | [-> | [-> | Hf]]]];
        [.. | by apply elem_of_nil in Hf];
        split; apply (bool_decide_unpack _); by vm_compute. }
    split; [done |]. split; [done |]. split; [done |]. split.
    { intros Hin. repeat (apply elem_of_cons in Hin as [Hin | Hin]; [done |]).
      by apply elem_of_nil in Hin. }
    intros fsets section Hfsets Hsection Htitle.
    destruct displayable as [| first others]; [done |].
    destruct (product_fieldsets_shape settings option_fields first others)
      as (tail & Htail & Heq).
    rewrite Heq, Hflag in Hfsets. injection Hfsets as <-.
    apply elem_of_cons in Hsection as [-> | Hsection].
    + exists first. split; [left |]. done.
    + destruct (Htail _ Hsection) as [Hin | ->].
      * exists section. split; [by right | done].
      * done.
Qed.

Example product_fieldsets_sample :
  product_fieldsets Sample.settings Sample.option_fields Sample.displayable
  = Ok [ {| fs_title := None;
            fs_fields := [ Field "title"; Field "status"; Field "available";
                           Field "manufacturer";
                           Group ["publish_date"; "expiry_date"];
                           Field "content"; Field "categories" ];
            fs_classes := None |};
         {| fs_title := Some "Create new variations";
            fs_fields := [Field "option1"; Field "option2"];
            fs_classes := Some ["create-variations"] |};
         {| fs_title := Some "Meta data";
            fs_fields := [ Field "_meta_title"; Field "slug";
                           Group ["description"; "gen_description"];
                           Field "keywords"; Field "in_sitemap" ];
            fs_classes := Some ["collapse-closed"] |};
         {| fs_title := Some "Other products";
            fs_fields := [Field "related_products"];
            fs_classes := Some ["collapse-closed"] |} ].
Proof. reflexivity. Qed.

(** ** Strings and dictionaries of the request *)

Section strings.

Lemma append_String c s1 s2 : String c s1 +:+ s2 = String c (s1 +:+ s2).
Proof. reflexivity. Qed.

Lemma startswith_spec p s :
  Py.startswith p s = true ↔ ∃ rest, s = p +:+ rest.
Proof.
  unfold Py.startswith. revert s.
  induction p as [| a p IH]; intros s; cbn.
  - destruct s; split; eauto.
  - destruct s as [| c s]; cbn.
    + split; [done | by intros [rest Hrest]].
    + destruct (Ascii.ascii_dec a c) as [-> | Hne].
      * rewrite IH.
        split; intros [rest Hrest]; exists rest;
          rewrite append_String in *; congruence.
      * split; [done |].
        intros [rest Hrest]. rewrite append_String in Hrest. congruence.
Qed.

Lemma endswith_spec p s :
  Py.endswith p s = true ↔ ∃ front, s = front +:+ p.
Proof.
  induction s as [| c s IH].
  - change (Py.endswith p "") with (String.eqb "" p || false).
    rewrite orb_false_r, String.eqb_eq. split.
    + intros <-. by exists "".
    + intros [[| ? ?] Hfront]; [done | discriminate].
  - change (Py.endswith p (String c s))
      with (String.eqb (String c s) p || Py.endswith p s).
    rewrite orb_true_iff, String.eqb_eq, IH. split.
    + intros [<- | [front ->]]; [by exists "" | by exists (String c front)].
    + intros [[| c' front] Hfront]; [by left |].
      right. exists front. rewrite append_String in Hfront. congruence.
Qed.

(** A key of the delete box of a row of the images formset. *)
Lemma is_image_delete_key_spec f :
  is_image_delete_key f = true
  ↔ (∃ rest, f = "images-" +:+ rest) ∧ (∃ front, f = front +:+ "-DELETE").
Proof.
  unfold is_image_delete_key.
  by rewrite andb_true_iff, startswith_spec, endswith_spec.
Qed.

Lemma prefix_cons_ne a c p s :
  a ≠ c → String.prefix (String a p) (String c s) = false.
Proof.
  intros Hne.
  change (String.prefix (String a p) (String c s))
    with (if Ascii.ascii_dec a c then String.prefix p s else false).
  by destruct (Ascii.ascii_dec a c).
Qed.

Lemma digit_not_prefix c p rest s :
  is_digit c = true → String.prefix (String "-" p) (String c s) = false
                      ∧ String.prefix (String "D" rest) (String c s) = false.
Proof.
  intros Hdigit. split; apply prefix_cons_ne; by intros <-.
Qed.

Lemma replace_from_other c s :
  c ≠ "-"%char →
  Py.replace_from "-DELETE" "-id" 0 (String c s)
  = String c (Py.replace_from "-DELETE" "-id" 0 s).
Proof.
  intros Hne. cbn [Py.replace_from].
  by rewrite prefix_cons_ne.
Qed.

Lemma replace_from_digits n rest :
  all_digits n = true →
  Py.replace_from "-DELETE" "-id" 0 (n +:+ rest)
  = n +:+ Py.replace_from "-DELETE" "-id" 0 rest.
Proof.
  induction n as [| c n IH]; [done |].
  cbn [all_digits]. intros [Hc Hn]%andb_true_iff.
  rewrite !append_String, replace_from_other, IH; [done.. |].
  by intros ->.
Qed.

(** On the key of a row's delete box, [replace] gives the key of the
    row's id. *)
Lemma replace_delete_key n :
  all_digits n = true →
  Py.replace "-DELETE" "-id" ("images-" +:+ n +:+ "-DELETE")
  = "images-" +:+ n +:+ "-id".
Proof.
  intros Hn. unfold Py.replace.
  change ("images-" +:+ n +:+ "-DELETE")
    with (String "i" (String "m" (String "a" (String "g" (String "e"
           (String "s" (String "-" (n +:+ "-DELETE")))))))).
  rewrite !replace_from_other by done.
  assert (String.prefix "-DELETE" (String "-" (n +:+ "-DELETE")) = false)
    as Hprefix.
  { destruct n as [| c n]; [done |].
    cbn [all_digits] in Hn. apply andb_true_iff in Hn as [Hc _].
    change (String.prefix "-DELETE" (String "-" (String c n +:+ "-DELETE")))
      with (String.prefix "DELETE" (String c (n +:+ "-DELETE"))).
    apply (digit_not_prefix c "" _ _ Hc). }
  cbn [Py.replace_from]. rewrite Hprefix.
  by rewrite replace_from_digits.
Qed.

Lemma delete_key_is_image_delete_key n :
  is_image_delete_key ("images-" +:+ n +:+ "-DELETE") = true.
Proof.
  apply is_image_delete_key_spec. split; [by exists (n +:+ "-DELETE") |].
  by exists ("images-" +:+ n).
Qed.

End strings.

Section dictionaries.

Context {V : Type} (g : string → V).

(** Setting a key to the value it already has, or adding it. *)
Lemma elem_of_set_functional d k :
  (∀ kv, kv ∈ d → kv.2 = g kv.1) →
  ∀ kv, kv ∈ PyDict.set k (g k) d ↔ kv ∈ d ∨ kv = (k, g k).
Proof.
  induction d as [| [k' v'] d IH]; intros Hd kv; cbn [PyDict.set].
  - rewrite list_elem_of_singleton, elem_of_nil. tauto.
  - assert (∀ kv, kv ∈ d → kv.2 = g kv.1) as Hd'.
    { intros kv' Hkv'. apply Hd. by right. }
    case_decide as Hk.
    + subst k'. assert (v' = g k) as -> by (apply (Hd (k, v')); left).
      rewrite !elem_of_cons. tauto.
    + rewrite !elem_of_cons, (IH Hd'). tauto.
Qed.

Lemma elem_of_foldl_set_functional fs acc :
  (∀ kv, kv ∈ acc → kv.2 = g kv.1) →
  ∀ kv,
    kv ∈ foldl (λ d kv, PyDict.set kv.1 kv.2 d) acc ((λ f, (f, g f)) <$> fs)
    ↔ kv ∈ acc ∨ ∃ f, f ∈ fs ∧ kv = (f, g f).
Proof.
  revert acc. induction fs as [| f fs IH]; intros acc Hacc kv.
  - cbn. split; [auto |]. intros [? | (f & Hf & _)]; [done |].
    by apply elem_of_nil in Hf.
  - cbn [fmap list_fmap foldl fst snd]. rewrite IH.
    + rewrite (elem_of_set_functional acc f Hacc). split.
      * intros [[? | ->] | (f' & Hf' & ->)]; [by left | right ..].
        -- exists f. split; [left | done].
        -- exists f'. split; [by right | done].
      * intros [? | (f' & [-> | Hf']%elem_of_cons & ->)]; eauto.
    + intros kv' [Hkv' | ->]%(elem_of_set_functional acc f Hacc); auto.
Qed.

Lemma elem_of_of_items_functional fs kv :
  kv ∈ PyDict.of_items ((λ f, (f, g f)) <$> fs)
  ↔ ∃ f, f ∈ fs ∧ kv = (f, g f).
Proof.
  unfold PyDict.of_items. rewrite elem_of_foldl_set_functional.
  - rewrite elem_of_nil. tauto.
  - intros ? []%elem_of_nil.
Qed.

End dictionaries.

(** The options passed on are the option fields with a selection in the
    request, each with the values selected. *)
Lemma elem_of_selected_options option_fields request f values :
  (f, values) ∈ selected_options option_fields request
  ↔ f ∈ option_fields
    ∧ values = QueryDict.getlist f (POST request)
    ∧ values ≠ [].
Proof.
  unfold selected_options.
  rewrite (elem_of_of_items_functional
             (λ f, QueryDict.getlist f (POST request))).
  split.
  - intros (f' & [Hsel Hf']%list_elem_of_filter & [= -> ->]). done.
  - intros (Hf & -> & Hsel). exists f. by rewrite list_elem_of_filter.
Qed.

(** The ids passed on are the values under the id keys of the keys of
    delete boxes of the images formset. *)
Lemma elem_of_deleted_images request id :
  id ∈ deleted_images request
  ↔ ∃ f, f ∈ QueryDict.keys (POST request)
         ∧ Py.startswith "images-" f = true
         ∧ Py.endswith "-DELETE" f = true
         ∧ id = QueryDict.get (Py.replace "-DELETE" "-id" f) (POST request).
Proof.
  unfold deleted_images, is_image_delete_key.
  rewrite list_elem_of_fmap.
  split.
  - intros (f & -> & [[??]%andb_true_iff Hf]%list_elem_of_filter). eauto.
  - intros (f & Hf & Hstart & Hend & ->). exists f. split; [done |].
    apply list_elem_of_filter. by rewrite Hstart, Hend.
Qed.

(** ** Runs of [save_formset] *)

Ltac run_admin :=
  unfold save_product, save_formsets, save_model, save_formset,
    mbind, M_bind, mret, M_ret, call, getattr, setattr;
  repeat (case_decide; try congruence; []); cbn.

Section runs.

Context (option_fields : list string) (request : HttpRequest).

(** Given the images formset, [save_formset] stores it and calls
    nothing. *)
Lemma save_formset_images formset self :
  formset_model formset = ProductImage →
  save_formset option_fields request formset self
  = {| outcome := Ok (); admin_after := set_images_formset self formset;
       calls := [] |}.
Proof. intros Hmodel. run_admin. reflexivity. Qed.

(** Given the variations formset, with the product and the images
    formset stored. *)
Lemma save_formset_variations formset self product images_formset :
  formset_model formset = ProductVariation →
  _product self = Some product →
  _images_formset self = Some images_formset →
  save_formset option_fields request formset self
  = {| outcome := Ok (); admin_after := self;
       calls := [ SuperSaveFormset formset;
                  CreateFromOptions product
                    (selected_options option_fields request);
                  ManageEmpty product;
                  SetDefaultImages product (deleted_images request);
                  SuperSaveFormset images_formset;
                  SetDefaultImages product (deleted_images request);
                  CopyDefaultVariation product ] |}.
Proof.
  intros Hmodel Hproduct Himages. run_admin.
  rewrite Hproduct. cbn. rewrite Himages. reflexivity.
Qed.

(** Without a stored product the first manager call fails. *)
Lemma save_formset_no_product formset self :
  formset_model formset = ProductVariation →
  _product self = None →
  save_formset option_fields request formset self
  = {| outcome := Raise (AttributeError "_product"); admin_after := self;
       calls := [SuperSaveFormset formset] |}.
Proof.
  intros Hmodel Hproduct. run_admin. rewrite Hproduct. reflexivity.
Qed.

(** Without a stored images formset its save fails. *)
Lemma save_formset_no_images formset self product :
  formset_model formset = ProductVariation →
  _product self = Some product →
  _images_formset self = None →
  save_formset option_fields request formset self
  = {| outcome := Raise (AttributeError "_images_formset");
       admin_after := self;
       calls := [ SuperSaveFormset formset;
                  CreateFromOptions product
                    (selected_options option_fields request);
                  ManageEmpty product;
                  SetDefaultImages product (deleted_images request) ] |}.
Proof.
  intros Hmodel Hproduct Himages. run_admin.
  rewrite Hproduct. cbn. rewrite Himages. reflexivity.
Qed.

(** Given the formset of any other model, it is saved and that is all. *)
Lemma save_formset_other formset self :
  formset_model formset ≠ ProductImage →
  formset_model formset ≠ ProductVariation →
  save_formset option_fields request formset self
  = {| outcome := Ok (); admin_after := self;
       calls := [SuperSaveFormset formset] |}.
Proof. intros Himage Hvariation. run_admin. reflexivity. Qed.

(** One save of a product: [save_model], the images formset, the
    variations formset. *)
Lemma save_product_run obj images variations self :
  formset_model images = ProductImage →
  formset_model variations = ProductVariation →
  save_product option_fields request obj [images; variations] self
  = {| outcome := Ok ();
       admin_after := set_images_formset (set_product self obj) images;
       calls := [ SuperSaveModel obj;
                  SuperSaveFormset variations;
                  CreateFromOptions obj
                    (selected_options option_fields request);
                  ManageEmpty obj;
                  SetDefaultImages obj (deleted_images request);
                  SuperSaveFormset images;
                  SetDefaultImages obj (deleted_images request);
                  CopyDefaultVariation obj ] |}.
Proof. intros Himages Hvariations. run_admin. reflexivity. Qed.

(** In every state of the instance, the calls of [save_formset] for the
    variations formset begin with the save of the formset. *)
Lemma save_formset_variations_first formset self :
  formset_model formset = ProductVariation →
  ∃ rest, calls (save_formset option_fields request formset self)
          = SuperSaveFormset formset :: rest.
Proof.
  intros Hmodel.
  destruct (_product self) as [product |] eqn:Hproduct.
  - destruct (_images_formset self) as [images |] eqn:Himages.
    + rewrite (save_formset_variations _ _ product images) by done.
      by eexists.
    + rewrite (save_formset_no_images _ _ product) by done. by eexists.
  - rewrite save_formset_no_product by done. by eexists.
Qed.

(** Storing an images formset after another leaves the one stored
    last. *)
Lemma set_images_formset_twice self formset1 formset2 :
  set_images_formset (set_images_formset self formset1) formset2
  = set_images_formset self formset2.
Proof. reflexivity. Qed.

(** The calls for formsets among which there is no variations formset:
    every images formset is stored, the last one stays, and the others
    are saved in their order. *)
Lemma save_formsets_others formsets self :
  Forall (λ f, formset_model f ≠ ProductVariation) formsets →
  save_formsets option_fields request formsets self
  = {| outcome := Ok ();
       admin_after :=
         match last (filter (λ f, formset_model f = ProductImage) formsets)
         with
         | Some stored => set_images_formset self stored
         | None => self
         end;
       calls := SuperSaveFormset
                  <$> filter (λ f, formset_model f ≠ ProductImage) formsets |}.
Proof.
  intros Hall. revert self.
  induction Hall as [| formset formsets Hv _ IH]; intros self; [done |].
  cbn [save_formsets]. unfold mbind at 1, M_bind at 1.
  destruct (decide (formset_model formset = ProductImage)) as [Hi | Hi].
  - rewrite save_formset_images by done. rewrite IH.
    rewrite filter_cons_True by done.
    rewrite filter_cons_False by (by intros ?).
    rewrite last_cons.
    destruct (last (filter _ formsets)) as [stored |]; [| done].
    by rewrite set_images_formset_twice.
  - rewrite save_formset_other by done. rewrite IH.
    rewrite filter_cons_False by done.
    by rewrite filter_cons_True by done.
Qed.

(** The calls for formsets followed by others, when there is no
    variations formset among the first. *)
Lemma save_formsets_app_others formsets1 formsets2 self :
  Forall (λ f, formset_model f ≠ ProductVariation) formsets1 →
  save_formsets option_fields request (formsets1 ++ formsets2) self
  = match
      save_formsets option_fields request formsets2
        (admin_after (save_formsets option_fields request formsets1 self))
    with
    | {| outcome := o; admin_after := self'; calls := calls2 |} =>
        {| outcome := o; admin_after := self';
           calls := calls (save_formsets option_fields request formsets1 self)
                    ++ calls2 |}
    end.
Proof.
  intros Hall. revert self.
  induction Hall as [| formset formsets Hv Hall IH]; intros self.
  { cbn. by destruct (save_formsets _ _ formsets2 self). }
  rewrite (save_formsets_others (formset :: formsets)) by by constructor.
  cbn [admin_after calls app save_formsets].
  unfold mbind at 1, M_bind at 1.
  destruct (decide (formset_model formset = ProductImage)) as [Hi | Hi].
  - rewrite save_formset_images by done. rewrite IH.
    rewrite (save_formsets_others formsets) by done.
    cbn [admin_after calls].
    rewrite filter_cons_True by done.
    rewrite filter_cons_False by (by intros ?).
    rewrite last_cons.
    destruct (last (filter _ formsets)) as [stored |];
      rewrite ?set_images_formset_twice;
      by destruct (save_formsets _ _ formsets2 _).
  - rewrite save_formset_other by done. rewrite IH.
    rewrite (save_formsets_others formsets) by done.
    cbn [admin_after calls].
    rewrite filter_cons_False by done.
    rewrite filter_cons_True by done.
    by destruct (save_formsets _ _ formsets2 _).
Qed.

(** One save of a product through the change form: [save_model], then
    formsets among which there is an images formset and no variations
    formset, then the variations formset. *)
Lemma save_product_variations_last obj before images variations self :
  Forall (λ f, formset_model f ≠ ProductVariation) before →
  last (filter (λ f, formset_model f = ProductImage) before) = Some images →
  formset_model variations = ProductVariation →
  save_product option_fields request obj (before ++ [variations]) self
  = {| outcome := Ok ();
       admin_after := set_images_formset (set_product self obj) images;
       calls :=
         SuperSaveModel obj
         :: (SuperSaveFormset
               <$> filter (λ f, formset_model f ≠ ProductImage) before)
         ++ [ SuperSaveFormset variations;
              CreateFromOptions obj (selected_options option_fields request);
              ManageEmpty obj;
              SetDefaultImages obj (deleted_images request);
              SuperSaveFormset images;
              SetDefaultImages obj (deleted_images request);
              CopyDefaultVariation obj ] |}.
Proof.
  intros Hall Hlast Hvariations.
  unfold save_product, save_model.
  unfold mbind at 1 2, M_bind at 1 2, call, setattr. cbn.
  rewrite save_formsets_app_others by done.
  rewrite (save_formsets_others before) by done. rewrite Hlast.
  cbn [save_formsets admin_after calls].
  unfold mbind at 1, M_bind at 1.
  by rewrite (save_formset_variations _ _ obj images).
Qed.

(** One save of a product that passes no variations formset, as a save
    from the change list does, which passes no formset at all. *)
Lemma save_product_others obj formsets self :
  Forall (λ f, formset_model f ≠ ProductVariation) formsets →
  save_product option_fields request obj formsets self
  = {| outcome := Ok ();
       admin_after :=
         match last (filter (λ f, formset_model f = ProductImage) formsets)
         with
         | Some stored => set_images_formset (set_product self obj) stored
         | None => set_product self obj
         end;
       calls :=
         SuperSaveModel obj
         :: (SuperSaveFormset
               <$> filter (λ f, formset_model f ≠ ProductImage) formsets) |}.
Proof.
  intros Hall.
  unfold save_product, save_model.
  unfold mbind at 1 2, M_bind at 1 2, call, setattr. cbn.
  by rewrite (save_formsets_others formsets).
Qed.

End runs.

(** ** The sample database meets the contract *)

Lemma shop_backend_contract request : ManagerContract (shop_backend request).
Proof.
  split; cbn.
  - intros _ w w' [= <-]. unfold Shop.manage_empty.
    destruct (Shop.variations w) eqn:Hvs; cbn; [lia |].
    rewrite Hvs. cbn. lia.
  - intros _ ids w w' [= <-] id Hid. cbn.
    intros (v & Hv & (v0 & -> & _)%list_elem_of_fmap)%list_elem_of_fmap.
    cbn in Hv.
    assert (head (filter (λ i, Some i ∉ ids) (Shop.images w)) ≠ Some id)
      as Hcandidate.
    { intros Hhead%head_Some_elem_of.
      by apply list_elem_of_filter in Hhead as []. }
    destruct (Shop.image v0) as [i |]; [| congruence].
    case_decide; congruence.
  - intros _ w w' prices. unfold Shop.copy_default_variation.
    destruct (filter _ _) eqn:Hdefault; [done |]. intros [= <-]. cbn.
    rewrite Hdefault. cbn. by intros [= <-].
Qed.


(** ** A product save on a database *)

Section on_a_database.

Context {W Prices : Type} (b : Backend W Prices).

Lemma run_trace_app trace1 trace2 w :
  run_trace b (trace1 ++ trace2) w
  = run_trace b trace1 w ≫= run_trace b trace2.
Proof.
  revert w. induction trace1 as [| e trace1 IH]; intros w; [done |].
  cbn. destruct (run_event b e w) as [w1 |]; [apply IH | done].
Qed.

Lemma run_trace_app_Some trace1 trace2 w w' :
  run_trace b (trace1 ++ trace2) w = Some w'
  ↔ ∃ w1, run_trace b trace1 w = Some w1 ∧ run_trace b trace2 w1 = Some w'.
Proof. rewrite run_trace_app. apply bind_Some. Qed.

Lemma run_trace_cons_Some e trace w w' :
  run_trace b (e :: trace) w = Some w'
  ↔ ∃ w1, run_event b e w = Some w1 ∧ run_trace b trace w1 = Some w'.
Proof. cbn. apply bind_Some. Qed.

End on_a_database.

Section counting.

Context {A : Type} (P : A → Prop) `{∀ x, Decision (P x)}.


End counting.

Section saves.

Context (option_fields : list string) (request : HttpRequest).
Context (obj : ModelObj).

(** The images formset stored last is an images formset. *)
Lemma last_images_model (before : list Formset) images :
  last (filter (λ f, formset_model f = ProductImage) before) = Some images →
  formset_model images = ProductImage.
Proof.
  intros Hlast%last_Some_elem_of.
  by apply list_elem_of_filter in Hlast as [].
Qed.


Lemma others_not_manager (formsets : list Formset) e :
  is_manager_call e = true →
  e ∉ SuperSaveFormset
        <$> filter (λ f, formset_model f ≠ ProductImage) formsets.
Proof. by intros He (g & -> & _)%list_elem_of_fmap. Qed.


End saves.

(** ** The order of a product save *)

(** C1.  When [save_formset] is given the variations formset, the calls
    run in this order: first the save of the variations formset itself,
    then [create_from_options] with the options selected in the request,
    then [manage_empty]; no manager method runs before the save of the
    variations formset.  The options are those option fields for which
    the request has values, each with its values. *)
Theorem save_formset_variations_order (option_fields : list string)
    (request : HttpRequest) (formset : Formset) (self : ProductAdmin) :
  formset_model formset = ProductVariation →
  let run := save_formset option_fields request formset self in
  head (calls run) = Some (SuperSaveFormset formset)
  ∧ (∀ i e, calls run !! i = Some e → is_manager_call e = true → 1 ≤ i)
  ∧ (∀ product, _product self = Some product →
       take 3 (calls run)
       = [ SuperSaveFormset formset;
           CreateFromOptions product (selected_options option_fields request);
           ManageEmpty product ])
  ∧ (∀ f values,
       (f, values) ∈ selected_options option_fields request
       ↔ f ∈ option_fields
         ∧ values = QueryDict.getlist f (POST request)
         ∧ values ≠ []).
Proof.
  intros Hmodel run.
  destruct (save_formset_variations_first option_fields request formset self
              Hmodel) as (rest & Hcalls).
  fold run in Hcalls.
  split; [by rewrite Hcalls |].
  split.
  { intros [| i] e; [| lia]. rewrite Hcalls. by intros [= <-]. }
  split; [| apply elem_of_selected_options].
  intros product Hproduct. subst run.
  destruct (_images_formset self) as [images |] eqn:Himages.
  - by rewrite (save_formset_variations _ _ _ _ product images).
  - by rewrite (save_formset_no_images _ _ _ _ product).
Qed.

Lemma save_formset_variations_order_witness :
  formset_model Sample.variations = ProductVariation
  ∧ take 3 (calls (save_formset Sample.option_fields Sample.request
                     Sample.variations
                     (set_product Sample.admin Sample.stove)))
    = [ SuperSaveFormset Sample.variations;
        CreateFromOptions Sample.stove [("option1", ["Red"; "Black"])];
        ManageEmpty Sample.stove ].
Proof.
  split; [reflexivity |].
  exact (proj1 (proj2 (proj2
           (save_formset_variations_order Sample.option_fields Sample.request
              Sample.variations (set_product Sample.admin Sample.stove)
              eq_refl)))
           Sample.stove eq_refl).
Defined.




(** C3, as the code has it.  In a save that passes the variations
    formset last, after an images formset, [copy_default_variation] is
    the last call of [save_formset] and of the save, after the save of
    the images formset and after the second [set_default_images]; so on a
    database that meets the contract the price fields of the product are,
    when the save is complete, those of its default variation.  A save
    that passes no variations formset, as a save from the change list
    does, never calls [copy_default_variation]. *)
Theorem copy_default_variation_last (option_fields : list string)
    (request : HttpRequest) (obj : ModelObj) (before : list Formset)
    (images variations : Formset) (self : ProductAdmin) :
  Forall (λ f, formset_model f ≠ ProductVariation) before →
  last (filter (λ f, formset_model f = ProductImage) before) = Some images →
  formset_model variations = ProductVariation →
  let stored := save_product option_fields request obj before self in
  let run :=
    save_product option_fields request obj (before ++ [variations]) self in
  outcome run = Ok ()
  ∧ last (calls run) = Some (CopyDefaultVariation obj)
  ∧ (∃ earlier,
       calls run
       = earlier ++ [ SetDefaultImages obj (deleted_images request);
                      SuperSaveFormset images;
                      SetDefaultImages obj (deleted_images request);
                      CopyDefaultVariation obj ]
       ∧ ∀ p, CopyDefaultVariation p ∉ earlier)
  ∧ last (calls (save_formset option_fields request variations
                   (admin_after stored)))
    = Some (CopyDefaultVariation obj)
  ∧ (∀ W Prices (b : Backend W Prices), ManagerContract b →
     ∀ w w', run_trace b (calls run) w = Some w' →
     ∀ prices, default_variation_prices b obj w' = Some prices →
               product_prices b obj w' = prices)
  ∧ (∀ formsets p,
       Forall (λ f, formset_model f ≠ ProductVariation) formsets →
       outcome (save_product option_fields request obj formsets self) = Ok ()
       ∧ CopyDefaultVariation p
         ∉ calls (save_product option_fields request obj formsets self)).
Proof.
  intros Hall Hlast Hvariations stored run. subst stored run.
  pose proof (last_images_model _ _ Hlast) as Himages.
  rewrite (save_product_variations_last _ _ _ _ images) by done.
  rewrite save_product_others by done. rewrite Hlast.
  cbn [outcome calls admin_after].
  rewrite (save_formset_variations _ _ _ _ obj images) by done.
  cbn [calls].
  split; [done |].
  split.
  { change (SuperSaveModel obj :: ?l ++ ?t)
      with ((SuperSaveModel obj :: l) ++ t).
    by rewrite last_app. }
  split.
  { exists (SuperSaveModel obj
            :: (SuperSaveFormset
                  <$> filter (λ f, formset_model f ≠ ProductImage) before)
            ++ [ SuperSaveFormset variations;
                 CreateFromOptions obj
                   (selected_options option_fields request);
                 ManageEmpty obj ]).
    split; [by rewrite <-app_comm_cons, <-app_assoc |].
    intros p [[=] | Hin]%elem_of_cons.
    apply elem_of_app in Hin as [Hin | Hin];
      [by apply others_not_manager in Hin |].
    rewrite !elem_of_cons, elem_of_nil in Hin.
    by destruct Hin as [? | [? | [? | []]]]. }
  split; [done |].
  split.
  { intros W Prices b Hb w w' Hrun prices Hdefault.
    change (SuperSaveModel obj :: ?l ++ ?t)
      with ((SuperSaveModel obj :: l) ++ t) in Hrun.
    apply run_trace_app_Some in Hrun as (w0 & _ & Hrun).
    do 6 apply run_trace_cons_Some in Hrun as (? & _ & Hrun).
    apply run_trace_cons_Some in Hrun as (w7 & Hcopy & [= <-]).
    by eapply copy_default_variation_copies. }
  intros formsets p Hformsets.
  rewrite save_product_others by done. cbn [outcome calls].
  split; [done |].
  intros [[=] | Hin]%elem_of_cons. by apply others_not_manager in Hin.
Qed.

Lemma copy_default_variation_last_witness :
  Forall (λ f, formset_model f ≠ ProductVariation) [Sample.images]
  ∧ last (filter (λ f, formset_model f = ProductImage) [Sample.images])
    = Some Sample.images
  ∧ formset_model Sample.variations = ProductVariation
  ∧ ∃ w',
      run_trace (shop_backend Sample.delete_request)
        (calls (save_product Sample.option_fields Sample.delete_request
                  Sample.stove ([Sample.images] ++ [Sample.variations])
                  Sample.admin))
        Sample.world = Some w'
      ∧ Shop.product w'
        = {| Shop.unit_price := Some 120; Shop.sale_price := Some 99 |}.
Proof.
  split; [by repeat constructor |]. split; [reflexivity |].
  split; [reflexivity |].
  eexists. split; [reflexivity |].
  exact (proj1 (proj2 (proj2 (proj2 (proj2
           (copy_default_variation_last Sample.option_fields
              Sample.delete_request Sample.stove [Sample.images]
              Sample.images Sample.variations Sample.admin
              ltac:(by repeat constructor) eq_refl eq_refl)))))
           _ _ (shop_backend Sample.delete_request)
           (shop_backend_contract Sample.delete_request) Sample.world _
           eq_refl _ eq_refl).
Defined.

(** A save from the change list passes no formset: [save_formset] is
    not called and neither is [copy_default_variation]; all that reaches
    the database is the framework's save of the product. *)
Lemma change_list_save_without_copy :
  outcome (save_product Sample.option_fields Sample.request Sample.stove []
             Sample.admin) = Ok ()
  ∧ calls (save_product Sample.option_fields Sample.request Sample.stove []
             Sample.admin)
    = [SuperSaveModel Sample.stove]
  ∧ last (calls (save_product Sample.option_fields Sample.request
                   Sample.stove [] Sample.admin))
    ≠ Some (CopyDefaultVariation Sample.stove).
Proof. repeat split. discriminate. Qed.




(** ** The images marked for deletion *)

(** C6.  The image ids passed to [set_default_images] are exactly the ids
    of the rows of the images formset marked for deletion in the request:
    for every key of [POST] that starts with "images-" and ends with
    "-DELETE" the value under the corresponding "-id" key is among them,
    and nothing else is.  The corresponding key is the one [replace]
    computes; for the key of row [n] it is "images-n-id". *)
Theorem deleted_images_exact (option_fields : list string)
    (request : HttpRequest) (formset : Formset) (self : ProductAdmin)
    (product : ModelObj) (images_formset : Formset) :
  formset_model formset = ProductVariation →
  _product self = Some product →
  _images_formset self = Some images_formset →
  let run := save_formset option_fields request formset self in
  (∀ p ids, SetDefaultImages p ids ∈ calls run →
            p = product ∧ ids = deleted_images request)
  ∧ length (filter (λ e, e = SetDefaultImages product (deleted_images request))
              (calls run)) = 2
  ∧ (∀ id, id ∈ deleted_images request
           ↔ ∃ f, f ∈ QueryDict.keys (POST request)
                  ∧ Py.startswith "images-" f = true
                  ∧ Py.endswith "-DELETE" f = true
                  ∧ id = QueryDict.get (Py.replace "-DELETE" "-id" f)
                           (POST request))
  ∧ (∀ f, Py.startswith "images-" f = true ∧ Py.endswith "-DELETE" f = true
          ↔ (∃ rest, f = "images-" +:+ rest)
            ∧ (∃ front, f = front +:+ "-DELETE"))
  ∧ (∀ n, all_digits n = true →
          Py.startswith "images-" ("images-" +:+ n +:+ "-DELETE") = true
          ∧ Py.endswith "-DELETE" ("images-" +:+ n +:+ "-DELETE") = true
          ∧ Py.replace "-DELETE" "-id" ("images-" +:+ n +:+ "-DELETE")
            = "images-" +:+ n +:+ "-id").
Proof.
  intros Hmodel Hproduct Himages run. subst run.
  rewrite (save_formset_variations _ _ _ _ product images_formset) by done.
  cbn [calls].
  split.
  { intros p ids Hin. rewrite !elem_of_cons, elem_of_nil in Hin.
    destruct Hin as [? | [? | [? | [? | [? | [? | [? | []]]]]]]];
      by simplify_eq. }
  split.
  { rewrite !filter_cons, filter_nil.
    repeat case_decide; try done; exfalso; congruence. }
  split; [apply elem_of_deleted_images |].
  split.
  { intros f. rewrite <-is_image_delete_key_spec.
    unfold is_image_delete_key. by rewrite andb_true_iff. }
  intros n Hn.
  pose proof (delete_key_is_image_delete_key n) as Hkey.
  apply andb_true_iff in Hkey as [Hstart Hend].
  split; [done |]. split; [done |]. by apply replace_delete_key.
Qed.

Lemma deleted_images_exact_witness :
  formset_model Sample.variations = ProductVariation
  ∧ deleted_images Sample.request = [Some "7"]
  ∧ length (filter (λ e, e = SetDefaultImages Sample.stove [Some "7"])
              (calls (save_formset Sample.option_fields Sample.request
                        Sample.variations
                        (set_images_formset
                           (set_product Sample.admin Sample.stove)
                           Sample.images)))) = 2.
Proof.
  split; [reflexivity |]. split; [reflexivity |].
  exact (proj1 (proj2
           (deleted_images_exact Sample.option_fields Sample.request
              Sample.variations
              (set_images_formset (set_product Sample.admin Sample.stove)
                 Sample.images)
              Sample.stove Sample.images eq_refl eq_refl eq_refl))).
Defined.

(** A key with two occurrences of "-DELETE": [replace] changes both, so
    the id is looked up under "images--id-id". *)
Example replace_every_occurrence :
  Py.replace "-DELETE" "-id" "images--DELETE-DELETE" = "images--id-id".
Proof. reflexivity. Qed.

(** ** [change_view] and [in_menu] *)

(** C10.  For the admin of the base [Product] model, [change_view] of a
    product whose [get_content_model] gives an instance of a subclass
    answers with a redirect to the change URL of that subclass's admin
    and does not go on to the base change view; for every admin of
    another model [change_view] never redirects in this way and
    [in_menu] is [False]. *)
Theorem change_view_redirects (site : Site) (self : ProductAdmin)
    (object_id : string) :
  (model self = Product →
     in_menu self = true
     ∧ ∀ product content_model,
         find_product site object_id = Ok (Some product) →
         get_content_model site product = Some content_model →
         change_view site self object_id
         = Ok (HttpResponseRedirect
                 (admin_url site (obj_class content_model) "change"
                    (obj_id content_model))))
  ∧ (model self ≠ Product →
     in_menu self = false
     ∧ change_view site self object_id = Ok (SuperChangeView object_id)
     ∧ ∀ url, change_view site self object_id
              ≠ Ok (HttpResponseRedirect url)).
Proof.
  unfold change_view, in_menu. split; intros Hmodel.
  - split; [by apply bool_decide_eq_true |].
    intros product content_model Hproduct Hcontent.
    rewrite decide_True by done. unfold get_object_or_404.
    by rewrite Hproduct, Hcontent.
  - rewrite decide_False by done.
    split; [by apply bool_decide_eq_false |]. done.
Qed.

Example change_view_stove :
  change_view Sample.site Sample.admin "1"
  = Ok (HttpResponseRedirect "/admin/shop/productstone/change/").
Proof. reflexivity. Qed.

(** ** [__init__]: the copy of the fieldsets *)

Section init.

Lemma length_py_insert {A} i (x : A) l :
  length (Py.insert i x l) = S (length l).
Proof.
  unfold Py.insert. rewrite length_app. cbn [length].
  rewrite length_take, length_drop. lia.
Qed.

(** The first fieldset of the product fieldsets has at least four
    fields, so an insertion at index 3 is inside the list. *)
Lemma product_fieldsets_first settings option_fields displayable value :
  product_fieldsets settings option_fields displayable = Ok value →
  ∃ first tail, value = first :: tail ∧ 4 ≤ length (fs_fields first).
Proof.
  destruct displayable as [| first0 others]; [done |].
  destruct (product_fieldsets_shape settings option_fields first0 others)
    as (tail & _ & ->).
  intros [= <-].
  assert (4 ≤ length (Py.insert 3 (Field "manufacturer")
                        (Py.insert 2 (Field "available") (fs_fields first0))
                      ++ [Field "content"; Field "categories"])) as Hlen.
  { rewrite length_app, !length_py_insert. cbn. lia. }
  destruct (SHOP_USE_VARIATIONS settings); eexists _, _; split; done.
Qed.

(** Inserting names at index 3, last name first, puts them there in
    their order. *)
Lemma insert_reversed (names : list string) (l : list FieldEntry) :
  3 ≤ length l →
  foldl (λ acc n, Py.insert 3 (Field n) acc) l (reverse names)
  = take 3 l ++ (Field <$> names) ++ drop 3 l.
Proof.
  intros Hl. induction names as [| n names IH].
  - cbn. by rewrite take_drop.
  - rewrite reverse_cons, foldl_app, IH. cbn [foldl]. unfold Py.insert.
    rewrite take_app_length', drop_app_length'
      by (by rewrite length_take_le).
    done.
Qed.

Lemma insert_extra_fields_spec first rest check fields σ :
  ∃ σ',
    insert_extra_fields (first :: rest) check fields σ = Ok σ'
    ∧ σ' !! r_fields first
      = (λ l, foldl (λ acc n, Py.insert 3 (Field n) acc) l
                (f_name <$> filter (λ f, is_extra_field check f = true)
                              fields))
        <$> σ !! r_fields first
    ∧ ∀ l, l ≠ r_fields first → σ' !! l = σ !! l.
Proof.
  revert σ. induction fields as [| field fields IH]; intros σ.
  - exists σ. split; [done |]. split; [| done].
    by destruct (σ !! r_fields first).
  - cbn [insert_extra_fields]. rewrite filter_cons.
    destruct (is_extra_field check field) eqn:Hextra.
    + cbn [insert_extra_field].
      destruct (IH (alter (Py.insert 3 (Field (f_name field)))
                      (r_fields first) σ)) as (σ' & -> & Hfirst & Hothers).
      exists σ'. split; [done |]. split.
      * rewrite Hfirst, lookup_alter_eq, decide_True by done.
        by destruct (σ !! r_fields first).
      * intros l Hl. by rewrite Hothers, lookup_alter_ne.
    + destruct (IH σ) as (σ' & -> & Hfirst & Hothers).
      exists σ'. split; [done |]. split; [| done].
      by rewrite Hfirst, decide_False.
Qed.

(** What [deepcopy] leaves: the old store is part of the new one, and
    every copied fieldset has its title and classes and a list with the
    same entries at a location that was not in use; a list reached for
    the first time is at a location that is new. *)
Lemma deepcopy_memo_spec (σ0 : store) rs memo (σ : store) copy σ' :
  σ0 ⊆ σ →
  (∀ r, r ∈ rs → is_Some (σ0 !! r_fields r)) →
  (∀ l l', memo !! l = Some l' →
           σ0 !! l' = None ∧ σ !! l' = Some (default [] (σ0 !! l))) →
  deepcopy_memo rs memo σ = (copy, σ') →
  σ ⊆ σ'
  ∧ Forall2 (λ r r',
      r_title r' = r_title r ∧ r_classes r' = r_classes r
      ∧ σ0 !! r_fields r' = None
      ∧ σ' !! r_fields r' = σ0 !! r_fields r
      ∧ match memo !! r_fields r with
        | Some l => r_fields r' = l
        | None => σ !! r_fields r' = None
        end) rs copy.
Proof.
  revert memo σ copy σ'.
  induction rs as [| r rs IH]; intros memo σ copy σ' Hσ0 Hrs Hmemo Hcopy.
  { injection Hcopy as <- <-. split; [done | constructor]. }
  assert (∀ r', r' ∈ rs → is_Some (σ0 !! r_fields r')) as Hrs'.
  { intros r' Hr'. apply Hrs. by right. }
  destruct (Hrs r) as [fields Hfields]; [by left |].
  cbn [deepcopy_memo] in Hcopy.
  destruct (memo !! r_fields r) as [l' |] eqn:Hhit.
  - destruct (deepcopy_memo rs memo σ) as [copy' σ''] eqn:Hrest.
    injection Hcopy as <- <-.
    destruct (IH memo σ copy' σ'' Hσ0 Hrs' Hmemo Hrest) as [Hsub Hall].
    split; [done |]. constructor; [| done].
    destruct (Hmemo _ _ Hhit) as [Hnew Hl']. cbn.
    repeat split; [done | | by rewrite Hhit].
    rewrite (lookup_weaken σ σ'' l' _ Hl' Hsub). by rewrite Hfields.
  - set (l' := fresh (dom σ)) in *.
    assert (σ !! l' = None) as Hl' by apply not_elem_of_dom, is_fresh.
    set (σ1 := <[l' := default [] (σ !! r_fields r)]> σ) in *.
    destruct (deepcopy_memo rs (<[r_fields r := l']> memo) σ1)
      as [copy' σ''] eqn:Hrest.
    injection Hcopy as <- <-.
    assert (σ ⊆ σ1) as Hσ1 by by apply insert_subseteq.
    assert (σ !! r_fields r = Some fields) as Hfields'
      by by apply (lookup_weaken σ0).
    destruct (IH (<[r_fields r := l']> memo) σ1 copy' σ'') as [Hsub Hall];
      [by etrans | done | | done |].
    { intros l l2 [[<- <-] | [Hne Hl]]%lookup_insert_Some.
      - split; [by eapply lookup_weaken_None |].
        subst σ1. by rewrite lookup_insert_eq, Hfields', Hfields.
      - destruct (Hmemo _ _ Hl) as [Hnew Hl2]. split; [done |].
        subst σ1. rewrite lookup_insert_ne; [done |]. congruence. }
    split; [by etrans |]. constructor.
    + cbn. repeat split; [by eapply lookup_weaken_None | | by rewrite Hhit].
      rewrite (lookup_weaken σ1 σ'' l' fields); [done | | done].
      subst σ1. by rewrite lookup_insert_eq, Hfields'.
    + eapply Forall2_impl; [exact Hall |].
      intros r1 r1' (Htitle & Hclasses & Hnew & Hlist & Hshare).
      repeat split; [done.. |].
      destruct (decide (r_fields r1 = r_fields r)) as [Heq | Hne].
      * rewrite Heq, lookup_insert_eq in Hshare. rewrite Heq, Hhit.
        by rewrite Hshare.
      * rewrite lookup_insert_ne in Hshare by done.
        destruct (memo !! r_fields r1); [done |].
        by eapply lookup_weaken_None.
Qed.

(** A store that has grown denotes the same fieldsets. *)
Lemma load_weaken (σ σ' : store) rs value :
  σ ⊆ σ' → load σ rs = Some value → load σ' rs = Some value.
Proof.
  intros Hsub. unfold load. rewrite !mapM_Some.
  intros Hall. eapply Forall2_impl; [exact Hall |].
  intros r f. unfold load_fieldset.
  destruct (σ !! r_fields r) as [fields |] eqn:Hr; [| done].
  by rewrite (lookup_weaken σ σ' _ _ Hr Hsub).
Qed.

Lemma load_is_Some (σ : store) rs value :
  load σ rs = Some value → ∀ r, r ∈ rs → is_Some (σ !! r_fields r).
Proof.
  unfold load. rewrite mapM_Some. intros Hall r Hr.
  apply list_elem_of_lookup in Hr as [i Hi].
  destruct (Forall2_lookup_l _ _ _ _ _ Hall Hi) as (f & _ & Hf).
  unfold load_fieldset in Hf. by destruct (σ !! r_fields r).
Qed.

(** The run of [__init__] for a model other than [Product] whose
    fieldsets are those of [ProductAdmin]. *)
Lemma init_copy (ProductAdmin_fieldsets : list FieldsetRef)
    (meta_fields : ModelClass → list ModelField) (self : ProductAdmin)
    (σ : store) (first : Fieldset) (tail : list Fieldset) :
  model self ≠ Product →
  load σ ProductAdmin_fieldsets = Some (first :: tail) →
  load σ (fieldsets self) = Some (first :: tail) →
  3 ≤ length (fs_fields first) →
  let extra :=
    f_name <$> filter (λ f, is_extra_field
                              (check_fields (meta_fields Product) self) f
                            = true)
                 (meta_fields (model self)) in
  let fields :=
    take 3 (fs_fields first) ++ (Field <$> extra) ++ drop 3 (fs_fields first) in
  ∃ self' σ' first' rest',
    __init__ ProductAdmin_fieldsets meta_fields self σ = Ok (self', σ')
    ∧ σ ⊆ σ'
    ∧ fieldsets self' = first' :: rest'
    ∧ σ !! r_fields first' = None
    ∧ load_fieldset σ' first' = Some (with_fields first fields)
    ∧ (NoDup (r_fields <$> fieldsets self) →
       load σ' (fieldsets self') = Some (with_fields first fields :: tail)).
Proof.
  intros Hmodel Hclass Hself Hlen extra fields.
  unfold __init__. rewrite decide_True by (split; [done | congruence]).
  destruct (fieldsets self) as [| r0 rs] eqn:Hfieldsets; [done |].
  pose proof (load_is_Some _ _ _ Hself) as Hsome.
  unfold load in Hself. apply mapM_Some in Hself.
  apply Forall2_cons_inv_l in Hself as (? & ? & Hr0 & Hrs & [= <- <-]).
  unfold load_fieldset in Hr0.
  destruct (σ !! r_fields r0) as [fields0 |] eqn:Hfields0; [| done].
  cbn in Hr0. injection Hr0 as <-. cbn [fs_fields] in *.
  unfold deepcopy. cbn [deepcopy_memo]. rewrite lookup_empty.
  set (l0 := fresh (dom σ)).
  assert (σ !! l0 = None) as Hl0 by apply not_elem_of_dom, is_fresh.
  rewrite Hfields0. change (default [] (Some fields0)) with fields0.
  set (σ1 := <[l0 := fields0]> σ).
  destruct (deepcopy_memo rs (<[r_fields r0 := l0]> ∅) σ1)
    as [copy σ2] eqn:Hcopy.
  assert (σ ⊆ σ1) as Hσ1 by by apply insert_subseteq.
  destruct (deepcopy_memo_spec σ rs (<[r_fields r0 := l0]> ∅) σ1 copy σ2)
    as [Hσ2 Hall];
    [done | | | done |].
  { intros r Hr. apply Hsome. by right. }
  { intros l l' [[<- <-] | [_ []%lookup_empty_Some]]%lookup_insert_Some.
    split; [done |]. subst σ1. by rewrite lookup_insert_eq, Hfields0. }
  set (self1 := set_fieldsets self (with_loc r0 l0 :: copy)).
  change (fieldsets self1) with (with_loc r0 l0 :: copy).
  change (check_fields (meta_fields Product) self1)
    with (check_fields (meta_fields Product) self).
  change (model self1) with (model self).
  destruct (insert_extra_fields_spec (with_loc r0 l0) copy
              (check_fields (meta_fields Product) self)
              (reverse (meta_fields (model self))) σ2)
    as (σ3 & -> & Hfirst & Hothers).
  cbn [with_loc r_fields] in Hfirst, Hothers.
  assert (σ2 !! l0 = Some fields0) as Hl0'.
  { apply (lookup_weaken σ1); [| done]. subst σ1. by rewrite lookup_insert_eq. }
  rewrite Hl0' in Hfirst. cbn in Hfirst.
  rewrite filter_reverse, fmap_reverse, insert_reversed in Hfirst by done.
  exists self1, σ3, (with_loc r0 l0), copy.
  split; [done |]. split.
  { apply map_subseteq_spec. intros l x Hl.
    rewrite Hothers by congruence.
    apply (lookup_weaken σ); [done | by etrans]. }
  split; [done |]. split; [done |].
  split.
  { unfold load_fieldset. cbn [with_loc r_fields r_title r_classes].
    by rewrite Hfirst. }
  intros Hnodup. cbn [fmap list_fmap] in Hnodup.
  apply NoDup_cons in Hnodup as [Hr0 _].
  unfold load. apply mapM_Some. constructor.
  { unfold load_fieldset. cbn [with_loc r_fields r_title r_classes].
    by rewrite Hfirst. }
  apply Forall2_same_length_lookup_2.
  { rewrite <-(Forall2_length _ _ _ Hall). by apply Forall2_length in Hrs. }
  intros i r' f Hr' Hf.
  destruct (Forall2_lookup_r _ _ _ _ _ Hall Hr')
    as (r & Hr & Htitle & Hclasses & Hnew & Hlist & Hshare).
  pose proof (Forall2_lookup_lr _ _ _ _ _ _ Hrs Hr Hf) as Hload.
  assert (r_fields r ≠ r_fields r0) as Hne.
  { intros Heq. apply Hr0. rewrite <-Heq.
    apply list_elem_of_fmap_2, list_elem_of_lookup. eauto. }
  rewrite lookup_insert_ne, lookup_empty in Hshare by done.
  unfold load_fieldset in *.
  assert (r_fields r' ≠ l0) as Hne'.
  { intros Heq. rewrite Heq in Hshare. subst σ1.
    by rewrite lookup_insert_eq in Hshare. }
  rewrite Hothers by done. by rewrite Hlist, Htitle, Hclasses.
Qed.


Lemma elem_of_check_fields product_meta_fields self name :
  name ∈ check_fields product_meta_fields self
  ↔ name ∈ f_name <$> product_meta_fields
    ∨ name = "product_ptr"
    ∨ name ∈ default [] (exclude self)
    ∨ name ∈ default [] (form_meta_exclude self).
Proof.
  unfold check_fields.
  destruct (exclude self), (form_meta_exclude self); cbn [default];
    rewrite ?elem_of_app, list_elem_of_singleton, ?elem_of_nil; tauto.
Qed.

Lemma is_extra_field_spec product_meta_fields self field :
  is_extra_field (check_fields product_meta_fields self) field = true
  ↔ (f_name field ∉ f_name <$> product_meta_fields)
    ∧ f_name field ≠ "product_ptr"
    ∧ (f_name field ∉ default [] (exclude self))
    ∧ (f_name field ∉ default [] (form_meta_exclude self))
    ∧ f_editable field = true.
Proof.
  unfold is_extra_field.
  rewrite andb_true_iff, bool_decide_eq_true, elem_of_check_fields.
  tauto.
Qed.

End init.

(** C9.  Creating a [ProductAdmin] for a subclass of [Product] whose
    fieldsets equal those of [ProductAdmin] copies the fieldsets before
    the extra fields are inserted: the lists of the class attribute
    [ProductAdmin.fieldsets], and of every other admin class, are as
    before.  The fields inserted, at index 3 of the first fieldset of
    the instance's own copy, are exactly the editable fields of the model
    that are not fields of [Product], not "product_ptr" and not in the
    exclude lists of the admin or of its form, in the order the model
    declares them. *)
Theorem init_copies_fieldsets (settings : Settings)
    (option_fields : list string) (displayable : list Fieldset)
    (ProductAdmin_fieldsets : list FieldsetRef)
    (meta_fields : ModelClass → list ModelField)
    (self : ProductAdmin) (σ : store) (value : list Fieldset) :
  model self ≠ Product →
  product_fieldsets settings option_fields displayable = Ok value →
  load σ ProductAdmin_fieldsets = Some value →
  load σ (fieldsets self) = Some value →
  let extra :=
    filter (λ f, (f_name f ∉ f_name <$> meta_fields Product)
                 ∧ f_name f ≠ "product_ptr"
                 ∧ (f_name f ∉ default [] (exclude self))
                 ∧ (f_name f ∉ default [] (form_meta_exclude self))
                 ∧ f_editable f = true)
      (meta_fields (model self)) in
  ∃ self' σ' first tail first' rest',
    __init__ ProductAdmin_fieldsets meta_fields self σ = Ok (self', σ')
    ∧ value = first :: tail
    ∧ (∀ l fields, σ !! l = Some fields → σ' !! l = Some fields)
    ∧ load σ' ProductAdmin_fieldsets = Some value
    ∧ (∀ other v, load σ other = Some v → load σ' other = Some v)
    ∧ fieldsets self' = first' :: rest'
    ∧ σ !! r_fields first' = None
    ∧ load_fieldset σ' first'
      = Some (with_fields first
                (take 3 (fs_fields first)
                 ++ (Field <$> (f_name <$> extra))
                 ++ drop 3 (fs_fields first)))
    ∧ (NoDup (r_fields <$> fieldsets self) →
       load σ' (fieldsets self')
       = Some (with_fields first
                 (take 3 (fs_fields first)
                  ++ (Field <$> (f_name <$> extra))
                  ++ drop 3 (fs_fields first)) :: tail)).
Proof.
  intros Hmodel Hvalue Hclass Hself extra.
  destruct (product_fieldsets_first _ _ _ _ Hvalue)
    as (first & tail & -> & Hlen).
  destruct (init_copy ProductAdmin_fieldsets meta_fields self σ first tail)
    as (self' & σ' & first' & rest' & Hinit & Hsub & Hown & Hnew & Hfirst
        & Hall); [done | done | done | lia |].
  assert (filter (λ f, is_extra_field
                         (check_fields (meta_fields Product) self) f = true)
            (meta_fields (model self)) = extra) as Hextra.
  { apply list_filter_iff. intros f. apply is_extra_field_spec. }
  rewrite Hextra in Hfirst, Hall.
  exists self', σ', first, tail, first', rest'.
  split; [done |]. split; [done |].
  split; [intros l fields Hl; by apply (lookup_weaken σ) |].
  split; [by apply (load_weaken σ) |].
  split; [intros other v; by apply load_weaken |].
  done.
Qed.

Lemma init_copies_fieldsets_witness :
  model Sample.stone_admin ≠ Product
  ∧ product_fieldsets Sample.settings Sample.option_fields Sample.displayable
    = Ok Sample.product_fieldsets_value
  ∧ load Sample.store Sample.ProductAdmin_fieldsets
    = Some Sample.product_fieldsets_value
  ∧ load Sample.store (fieldsets Sample.stone_admin)
    = Some Sample.product_fieldsets_value
  ∧ ∃ self' σ',
      __init__ Sample.ProductAdmin_fieldsets Sample.meta_fields
        Sample.stone_admin Sample.store = Ok (self', σ')
      ∧ load σ' Sample.ProductAdmin_fieldsets
        = Some Sample.product_fieldsets_value
      ∧ fs_fields <$> (load σ' (fieldsets self') ≫= head)
        = Some [ Field "title"; Field "status"; Field "available";
                 Field "colour"; Field "weight";
                 Field "manufacturer";
                 Group ["publish_date"; "expiry_date"];
                 Field "content"; Field "categories" ].
Proof.
  assert (model Sample.stone_admin ≠ Product) as Hmodel by discriminate.
  split; [exact Hmodel |].
  split; [reflexivity |]. split; [reflexivity |]. split; [reflexivity |].
  destruct (init_copies_fieldsets Sample.settings Sample.option_fields
              Sample.displayable Sample.ProductAdmin_fieldsets
              Sample.meta_fields Sample.stone_admin Sample.store
              Sample.product_fieldsets_value Hmodel eq_refl eq_refl eq_refl)
    as (self' & σ' & first & tail & first' & rest' & Hinit & Hvalue & _
        & Hclass & _ & _ & _ & _ & Hall).
  exists self', σ'. split; [exact Hinit |]. split; [exact Hclass |].
  injection Hvalue as <- <-.
  rewrite Hall; [reflexivity |].
  apply (bool_decide_unpack _). reflexivity.
Defined.

(** Without the copy the insertion would reach the list of the class:
    [ProductAdmin.fieldsets] would no longer denote what the module
    computed. *)
Example insert_without_copy :
  match insert_extra_field Sample.ProductAdmin_fieldsets "colour"
          Sample.store with
  | Ok σ' =>
      load σ' Sample.ProductAdmin_fieldsets
      ≠ Some Sample.product_fieldsets_value
  | Raise _ => False
  end.
Proof. apply (bool_decide_unpack _). reflexivity. Qed.

(** ** Errors *)



(** The variations formset handed to an admin that was given neither a
    product nor an images formset: the formset is saved and the first
    manager call fails. *)
Example save_formset_out_of_order :
  save_formset Sample.option_fields Sample.request Sample.variations
    Sample.admin
  = {| outcome := Raise (AttributeError "_product");
       admin_after := Sample.admin;
       calls := [SuperSaveFormset Sample.variations] |}.
Proof. reflexivity. Qed.

Example change_view_missing :
  change_view Sample.site Sample.admin "2" = Raise Http404.
Proof. reflexivity. Qed.

(** A key that is no number: the lookup raises, and [change_view]
    passes the exception on. *)
Example change_view_bad_key :
  change_view Sample.site Sample.admin "abc" = Raise ValueError.
Proof. reflexivity. Qed.

(** * Further properties *)

(** ** The state of the admin across [save_formset] *)

(** X1.  [save_formset] changes the admin in one way only: given the
    images formset it stores it; given any other formset it leaves every
    attribute as it was, also when it raises. *)
Theorem save_formset_admin_after (option_fields : list string)
    (request : HttpRequest) (formset : Formset) (self : ProductAdmin) :
  admin_after (save_formset option_fields request formset self)
  = if decide (formset_model formset = ProductImage)
    then set_images_formset self formset
    else self.
Proof.
  destruct (decide (formset_model formset = ProductImage)) as [Hi | Hi].
  { by rewrite save_formset_images. }
  destruct (decide (formset_model formset = ProductVariation)) as [Hv | Hv].
  - destruct (_product self) as [product |] eqn:Hproduct.
    + destruct (_images_formset self) as [stored |] eqn:Hstored.
      * by rewrite (save_formset_variations _ _ _ _ product stored).
      * by rewrite (save_formset_no_images _ _ _ _ product).
    + by rewrite save_formset_no_product.
  - by rewrite save_formset_other.
Qed.

(** X2.  For the variations formset, [save_formset] runs to its end
    exactly when a product and an images formset have been stored, and
    [copy_default_variation] is called exactly when it runs to its end. *)
Theorem save_formset_variations_completes (option_fields : list string)
    (request : HttpRequest) (formset : Formset) (self : ProductAdmin) :
  formset_model formset = ProductVariation →
  let run := save_formset option_fields request formset self in
  (outcome run = Ok ()
   ↔ is_Some (_product self) ∧ is_Some (_images_formset self))
  ∧ (∀ p, CopyDefaultVariation p ∈ calls run
          ↔ outcome run = Ok () ∧ _product self = Some p).
Proof.
  intros Hmodel run. subst run.
  destruct (_product self) as [product |] eqn:Hproduct.
  - destruct (_images_formset self) as [stored |] eqn:Hstored.
    + rewrite (save_formset_variations _ _ _ _ product stored) by done.
      cbn. split; [split; eauto |].
      intros p. rewrite !elem_of_cons, elem_of_nil. split.
      * intros [? | [? | [? | [? | [? | [? | [? | []]]]]]]]; by simplify_eq.
      * intros [_ [= ->]]. tauto.
    + rewrite (save_formset_no_images _ _ _ _ product) by done.
      cbn. split.
      * split; [done |]. by intros [_ [? ?]].
      * intros p. rewrite !elem_of_cons, elem_of_nil. split; [| by intros []].
        by intros [? | [? | [? | [? | []]]]].
  - rewrite save_formset_no_product by done.
    cbn. split.
    + split; [done |]. by intros [[? ?] _].
    + intros p. rewrite !elem_of_cons, elem_of_nil. split; [| by intros []].
      by intros [? | []].
Qed.

Lemma save_formset_variations_completes_witness :
  formset_model Sample.variations = ProductVariation
  ∧ outcome (save_formset Sample.option_fields Sample.request
               Sample.variations
               (set_images_formset (set_product Sample.admin Sample.stove)
                  Sample.images)) = Ok ().
Proof.
  split; [reflexivity |].
  apply (proj1 (save_formset_variations_completes Sample.option_fields
                  Sample.request Sample.variations
                  (set_images_formset (set_product Sample.admin Sample.stove)
                     Sample.images) eq_refl)).
  split; eexists; reflexivity.
Defined.

(** X3.  Without a stored product the variations formset is saved all
    the same, and the first manager call then fails with
    [AttributeError]: no manager method runs. *)
Theorem save_formset_without_product (option_fields : list string)
    (request : HttpRequest) (formset : Formset) (self : ProductAdmin) :
  formset_model formset = ProductVariation →
  _product self = None →
  let run := save_formset option_fields request formset self in
  outcome run = Raise (AttributeError "_product")
  ∧ calls run = [SuperSaveFormset formset]
  ∧ Forall (λ e, is_manager_call e = false) (calls run).
Proof.
  intros Hmodel Hproduct run. subst run.
  rewrite save_formset_no_product by done. cbn.
  split; [done |]. split; [done |]. by constructor.
Qed.

Lemma save_formset_without_product_witness :
  formset_model Sample.variations = ProductVariation
  ∧ _product Sample.admin = None
  ∧ calls (save_formset Sample.option_fields Sample.request
             Sample.variations Sample.admin)
    = [SuperSaveFormset Sample.variations].
Proof.
  split; [reflexivity |]. split; [reflexivity |].
  exact (proj1 (proj2
           (save_formset_without_product Sample.option_fields Sample.request
              Sample.variations Sample.admin eq_refl eq_refl))).
Defined.

(** X4.  Without a stored images formset the run stops half way: the
    variations formset has been saved and [create_from_options],
    [manage_empty] and [set_default_images] have run, then the read of
    [_images_formset] fails; no images formset is saved and
    [copy_default_variation] is not called. *)
Theorem save_formset_without_images_formset (option_fields : list string)
    (request : HttpRequest) (formset : Formset) (self : ProductAdmin)
    (product : ModelObj) :
  formset_model formset = ProductVariation →
  _product self = Some product →
  _images_formset self = None →
  let run := save_formset option_fields request formset self in
  outcome run = Raise (AttributeError "_images_formset")
  ∧ calls run
    = [ SuperSaveFormset formset;
        CreateFromOptions product (selected_options option_fields request);
        ManageEmpty product;
        SetDefaultImages product (deleted_images request) ]
  ∧ (∀ p, CopyDefaultVariation p ∉ calls run)
  ∧ (∀ f, formset_model f = ProductImage → SuperSaveFormset f ∉ calls run).
Proof.
  intros Hmodel Hproduct Himages run. subst run.
  rewrite (save_formset_no_images _ _ _ _ product) by done. cbn.
  split; [done |]. split; [done |]. split.
  - intros p Hin. rewrite !elem_of_cons, elem_of_nil in Hin.
    by destruct Hin as [? | [? | [? | [? | []]]]].
  - intros f Hf Hin. rewrite !elem_of_cons, elem_of_nil in Hin.
    destruct Hin as [? | [? | [? | [? | []]]]]; simplify_eq. congruence.
Qed.

Lemma save_formset_without_images_formset_witness :
  formset_model Sample.variations = ProductVariation
  ∧ _images_formset (set_product Sample.admin Sample.stove) = None
  ∧ outcome (save_formset Sample.option_fields Sample.request
               Sample.variations (set_product Sample.admin Sample.stove))
    = Raise (AttributeError "_images_formset").
Proof.
  split; [reflexivity |]. split; [reflexivity |].
  exact (proj1
           (save_formset_without_images_formset Sample.option_fields
              Sample.request Sample.variations
              (set_product Sample.admin Sample.stove) Sample.stove
              eq_refl eq_refl eq_refl)).
Defined.

(** The calls of a list of formsets among which there is no variations
    formset. *)
Lemma save_formsets_no_variations option_fields request formsets self :
  Forall (λ f, formset_model f ≠ ProductVariation) formsets →
  outcome (save_formsets option_fields request formsets self) = Ok ()
  ∧ calls (save_formsets option_fields request formsets self)
    = SuperSaveFormset
        <$> filter (λ f, formset_model f ≠ ProductImage) formsets.
Proof.
  intros Hall. revert self.
  induction Hall as [| formset formsets Hv _ IH]; intros self; [done |].
  cbn [save_formsets]. unfold mbind, M_bind.
  destruct (decide (formset_model formset = ProductImage)) as [Hi | Hi].
  - rewrite save_formset_images by done.
    rewrite filter_cons_False by (intros Hne; by apply Hne).
    destruct (IH (set_images_formset self formset)) as [Hok Hcalls].
    destruct (save_formsets _ _ _ _) as [o s c].
    cbn [outcome calls] in *. by subst o c.
  - rewrite save_formset_other by done.
    rewrite filter_cons_True by done.
    destruct (IH self) as [Hok Hcalls].
    destruct (save_formsets _ _ _ _) as [o s c].
    cbn [outcome calls] in *. by subst o c.
Qed.

(** X5.  A save in which the framework passes no variations formset
    calls no manager method and never saves an images formset: the
    images formset is stored and left at that, the other formsets are
    saved in their order. *)
Theorem save_without_variations_formset (option_fields : list string)
    (request : HttpRequest) (obj : ModelObj) (formsets : list Formset)
    (self : ProductAdmin) :
  Forall (λ f, formset_model f ≠ ProductVariation) formsets →
  let run := save_product option_fields request obj formsets self in
  outcome run = Ok ()
  ∧ calls run
    = SuperSaveModel obj
      :: (SuperSaveFormset
            <$> filter (λ f, formset_model f ≠ ProductImage) formsets)
  ∧ Forall (λ e, is_manager_call e = false) (calls run)
  ∧ (∀ f, formset_model f = ProductImage → SuperSaveFormset f ∉ calls run).
Proof.
  intros Hall run. subst run.
  unfold save_product, save_model, mbind, M_bind, call, setattr. cbn.
  destruct (save_formsets_no_variations option_fields request formsets
              (set_product self obj) Hall) as [Hok Hcalls].
  destruct (save_formsets _ _ _ _) as [o s c]. cbn in *. subst o c.
  split; [done |]. split; [done |]. split.
  - constructor; [done |]. apply Forall_fmap, Forall_forall. done.
  - intros f Hf [? | Hin]%elem_of_cons; [done |].
    apply list_elem_of_fmap in Hin as (f' & [= <-] & Hf').
    by apply list_elem_of_filter in Hf' as [? _].
Qed.

Lemma save_without_variations_formset_witness :
  Forall (λ f, formset_model f ≠ ProductVariation) [Sample.images]
  ∧ calls (save_product Sample.option_fields Sample.request Sample.stove
             [Sample.images] Sample.admin)
    = [SuperSaveModel Sample.stove].
Proof.
  assert (Forall (λ f, formset_model f ≠ ProductVariation) [Sample.images])
    as Hall by (repeat constructor; discriminate).
  split; [exact Hall |].
  exact (proj1 (proj2
           (save_without_variations_formset Sample.option_fields
              Sample.request Sample.stove [Sample.images] Sample.admin
              Hall))).
Defined.

(** X6.  The images formset saved with the variations is the one stored
    last, also when it was stored by an earlier save: after a save with
    the formsets [images] and [variations], a second save that passes
    only a variations formset saves [images] again, for the new
    product. *)
Theorem save_reuses_stored_images_formset (option_fields : list string)
    (request1 request2 : HttpRequest) (obj1 obj2 : ModelObj)
    (images variations1 variations2 : Formset) (self : ProductAdmin) :
  formset_model images = ProductImage →
  formset_model variations1 = ProductVariation →
  formset_model variations2 = ProductVariation →
  let first :=
    save_product option_fields request1 obj1 [images; variations1] self in
  let second :=
    save_product option_fields request2 obj2 [variations2]
      (admin_after first) in
  outcome second = Ok ()
  ∧ calls second
    = [ SuperSaveModel obj2;
        SuperSaveFormset variations2;
        CreateFromOptions obj2 (selected_options option_fields request2);
        ManageEmpty obj2;
        SetDefaultImages obj2 (deleted_images request2);
        SuperSaveFormset images;
        SetDefaultImages obj2 (deleted_images request2);
        CopyDefaultVariation obj2 ]
  ∧ _images_formset (admin_after second) = Some images
  ∧ _product (admin_after second) = Some obj2.
Proof.
  intros Himages Hv1 Hv2 first second. subst first second.
  rewrite save_product_run by done. cbn [admin_after].
  unfold save_product, save_formsets, save_model, mbind, M_bind, mret, M_ret,
    call, setattr. cbn.
  rewrite (save_formset_variations _ _ _ _ obj2 images) by done.
  done.
Qed.

Lemma save_reuses_stored_images_formset_witness :
  formset_model Sample.images = ProductImage
  ∧ formset_model Sample.variations = ProductVariation
  ∧ SuperSaveFormset Sample.images
    ∈ calls (save_product Sample.option_fields Sample.request Sample.stone
               [Sample.variations]
               (admin_after
                  (save_product Sample.option_fields Sample.request
                     Sample.stove [Sample.images; Sample.variations]
                     Sample.admin))).
Proof.
  split; [reflexivity |]. split; [reflexivity |].
  rewrite (proj1 (proj2
             (save_reuses_stored_images_formset Sample.option_fields
                Sample.request Sample.request Sample.stove Sample.stone
                Sample.images Sample.variations Sample.variations
                Sample.admin eq_refl eq_refl eq_refl))).
  do 5 right. left.
Defined.

(** ** The options and the image ids read from the request *)

Section dictionary_keys.

Context {V : Type}.

Lemma keys_set k (v : V) d :
  (PyDict.set k v d).*1 = if decide (k ∈ d.*1) then d.*1 else d.*1 ++ [k].
Proof.
  induction d as [| [k' v'] d IH]; cbn [PyDict.set].
  - rewrite decide_False; [done |]. by intros ?%elem_of_nil.
  - destruct (decide (k' = k)) as [-> | Hk].
    + rewrite decide_True by (cbn; left). done.
    + cbn [fmap list_fmap fst]. rewrite IH.
      destruct (decide (k ∈ d.*1)) as [Hin | Hin].
      * rewrite decide_True by (cbn; by right). done.
      * rewrite decide_False; [done |].
        cbn. intros [? | ?]%elem_of_cons; congruence.
Qed.

Lemma NoDup_keys_set k (v : V) d :
  NoDup d.*1 → NoDup (PyDict.set k v d).*1.
Proof.
  intros Hd. rewrite keys_set. case_decide; [done |].
  apply NoDup_app. split; [done |]. split; [| apply NoDup_singleton].
  intros k' Hk' ->%list_elem_of_singleton. done.
Qed.

Lemma set_fresh k (v : V) d :
  k ∉ d.*1 → PyDict.set k v d = d ++ [(k, v)].
Proof.
  induction d as [| [k' v'] d IH]; [done |]. cbn.
  intros Hk. rewrite decide_False by (intros ->; apply Hk; left).
  rewrite IH; [done |]. intros ?. apply Hk. by right.
Qed.

Lemma foldl_set_NoDup (items acc : list (string * V)) :
  NoDup acc.*1 →
  NoDup (foldl (λ d kv, PyDict.set kv.1 kv.2 d) acc items).*1.
Proof.
  revert acc. induction items as [| [k v] items IH]; intros acc Hacc; [done |].
  cbn. by apply IH, NoDup_keys_set.
Qed.

Lemma foldl_set_fresh (items acc : list (string * V)) :
  NoDup (acc ++ items).*1 →
  foldl (λ d kv, PyDict.set kv.1 kv.2 d) acc items = acc ++ items.
Proof.
  revert acc. induction items as [| [k v] items IH]; intros acc Hnodup.
  - by rewrite app_nil_r.
  - cbn [foldl fst snd]. rewrite set_fresh.
    + rewrite IH; rewrite <-app_assoc; done.
    + rewrite fmap_app in Hnodup. apply NoDup_app in Hnodup as (_ & Hd & _).
      intros Hk. apply (Hd k Hk). cbn. left.
Qed.

(** A dictionary built from items has every key once; items whose keys
    are distinct are kept as they are. *)
Lemma NoDup_keys_of_items (items : list (string * V)) :
  NoDup (PyDict.of_items items).*1.
Proof. apply foldl_set_NoDup. constructor. Qed.

Lemma of_items_NoDup (items : list (string * V)) :
  NoDup items.*1 → PyDict.of_items items = items.
Proof. intros Hnodup. by apply (foldl_set_fresh items []). Qed.

End dictionary_keys.

(** X7.  The options passed to [create_from_options] form a dictionary:
    every option field occurs in it at most once, also when it is listed
    twice among the option fields; its keys are the option fields with a
    value in the request; it is empty exactly when no option field has
    one; and when the option fields are distinct its items are in their
    order. *)
Theorem selected_options_dict (option_fields : list string)
    (request : HttpRequest) :
  NoDup (selected_options option_fields request).*1
  ∧ (∀ f, f ∈ (selected_options option_fields request).*1
          ↔ f ∈ option_fields ∧ QueryDict.getlist f (POST request) ≠ [])
  ∧ (selected_options option_fields request = []
     ↔ ∀ f, f ∈ option_fields → QueryDict.getlist f (POST request) = [])
  ∧ (NoDup option_fields →
     selected_options option_fields request
     = (λ f, (f, QueryDict.getlist f (POST request)))
         <$> filter (λ f, QueryDict.getlist f (POST request) ≠ [])
               option_fields).
Proof.
  assert (∀ f, f ∈ (selected_options option_fields request).*1
               ↔ f ∈ option_fields
                 ∧ QueryDict.getlist f (POST request) ≠ []) as Hkeys.
  { intros f. rewrite list_elem_of_fmap. split.
    - intros ([f' values] & -> & Hin).
      apply elem_of_selected_options in Hin as (? & -> & ?). done.
    - intros [Hf Hsel]. exists (f, QueryDict.getlist f (POST request)).
      split; [done |]. by apply elem_of_selected_options. }
  split; [apply NoDup_keys_of_items |]. split; [exact Hkeys |]. split.
  - split.
    + intros Hnil f Hf.
      destruct (decide (QueryDict.getlist f (POST request) = []))
        as [| Hsel]; [done |].
      assert (f ∈ (selected_options option_fields request).*1) as Hin
        by by apply Hkeys.
      rewrite Hnil in Hin. by apply elem_of_nil in Hin.
    + intros Hnone.
      destruct (selected_options option_fields request) as [| [f v] d] eqn:Hd;
        [done |].
      destruct (proj1 (Hkeys f)) as [Hf Hsel]; [left |].
      by apply Hnone in Hf.
  - intros Hnodup. unfold selected_options. apply of_items_NoDup.
    assert (∀ l : list string,
              ((λ f, (f, QueryDict.getlist f (POST request))) <$> l).*1 = l)
      as Hfst.
    { intros l. induction l as [| x l IH]; [done |]. cbn. by rewrite IH. }
    rewrite Hfst. by apply NoDup_filter.
Qed.

(** X8.  The list of image ids is empty exactly when the request has no
    key of a delete box of the images formset; it has one entry for each
    such key; and a key whose id key is absent from the request, or has
    no value, gives the entry [None]. *)
Theorem deleted_images_edges (request : HttpRequest) :
  (deleted_images request = []
   ↔ ∀ f, f ∈ QueryDict.keys (POST request) → is_image_delete_key f = false)
  ∧ length (deleted_images request)
    = length (filter (λ f, is_image_delete_key f = true)
                (QueryDict.keys (POST request)))
  ∧ (∀ f, f ∈ QueryDict.keys (POST request) →
          is_image_delete_key f = true →
          QueryDict.getlist (Py.replace "-DELETE" "-id" f) (POST request)
          = [] →
          None ∈ deleted_images request).
Proof.
  unfold deleted_images. split; [| split].
  - split.
    + intros Hnil%fmap_nil_inv f Hf.
      destruct (is_image_delete_key f) eqn:Hkey; [| done].
      assert (f ∈ filter (λ f, is_image_delete_key f = true)
                    (QueryDict.keys (POST request))) as Hin
        by by apply list_elem_of_filter.
      rewrite Hnil in Hin. by apply elem_of_nil in Hin.
    + intros Hnone.
      destruct (filter (λ f, is_image_delete_key f = true)
                  (QueryDict.keys (POST request))) as [| f l] eqn:Hfilter;
        [done |].
      assert (f ∈ filter (λ f, is_image_delete_key f = true)
                    (QueryDict.keys (POST request))) as Hin
        by (rewrite Hfilter; left).
      apply list_elem_of_filter in Hin as [Hkey Hf].
      apply Hnone in Hf. congruence.
  - by rewrite length_fmap.
  - intros f Hf Hkey Hid. apply list_elem_of_fmap. exists f.
    split; [| by apply list_elem_of_filter].
    unfold QueryDict.get, QueryDict.getlist in *.
    destruct (QueryDict.lookup _ _) as [values |]; [| done].
    cbn in Hid. by subst values.
Qed.

Example deleted_images_without_id :
  deleted_images {| POST := [("images-3-DELETE", ["on"])] |} = [None].
Proof. reflexivity. Qed.

(** ** The lists of the admin classes *)

(** X9.  With [SHOP_USE_VARIATIONS] on or off, every editable field of
    the product change list is displayed there and none of them is a
    link to the change view; the displayed fields and the editable
    fields have no duplicates. *)
Theorem product_list_consistent (settings : Settings) :
  Forall (λ f, f ∈ product_list_display settings
               ∧ f ∉ ProductAdmin_list_display_links)
    (product_list_editable settings)
  ∧ Forall (λ f, f ∈ product_list_display settings)
      ProductAdmin_list_display_links
  ∧ NoDup (product_list_display settings)
  ∧ NoDup (product_list_editable settings)
  ∧ NoDup (ProductVariationAdmin_fields settings).
Proof.
  unfold product_list_display, product_list_editable,
    ProductVariationAdmin_fields, variation_fields.
  destruct (SHOP_USE_VARIATIONS settings);
    repeat split; apply (bool_decide_unpack _); reflexivity.
Qed.

Section fieldset_names_facts.

Lemma insert_2_3 {A} (a m : A) l :
  Py.insert 3 m (Py.insert 2 a l) = take 2 l ++ [a; m] ++ drop 2 l.
Proof. by destruct l as [| x [| y l]]. Qed.

Lemma fieldset_names_cons f fsets :
  fieldset_names (f :: fsets) = flatten (fs_fields f) ++ fieldset_names fsets.
Proof. reflexivity. Qed.

Lemma fieldset_names_app fsets1 fsets2 :
  fieldset_names (fsets1 ++ fsets2)
  = fieldset_names fsets1 ++ fieldset_names fsets2.
Proof. unfold fieldset_names. apply bind_app. Qed.

Lemma flatten_app es1 es2 : flatten (es1 ++ es2) = flatten es1 ++ flatten es2.
Proof. unfold flatten. apply bind_app. Qed.

Lemma flatten_cons e es : flatten (e :: es) = entry_names e ++ flatten es.
Proof. reflexivity. Qed.

Lemma flatten_fields names : flatten (Field <$> names) = names.
Proof.
  unfold flatten. induction names as [| n names IH]; [done |].
  cbn. by f_equal.
Qed.

(** The product fieldsets made from a first fieldset and others. *)
Lemma product_fieldsets_cons settings option_fields first others :
  product_fieldsets settings option_fields (first :: others)
  = Ok (with_fields first
          (take 2 (fs_fields first)
           ++ [Field "available"; Field "manufacturer"]
           ++ drop 2 (fs_fields first)
           ++ [Field "content"; Field "categories"])
        :: (if SHOP_USE_VARIATIONS settings
            then [create_variations_fieldset option_fields] else [])
        ++ others
        ++ match other_product_fields settings with
           | [] => []
           | _ :: _ => [other_products_fieldset settings]
           end).
Proof.
  unfold product_fieldsets. rewrite insert_2_3, <-!app_assoc.
  destruct (other_product_fields settings) as [| o os] eqn:Hother;
    cbn [length]; case_decide; try lia;
    destruct (SHOP_USE_VARIATIONS settings); cbn;
    by rewrite ?app_nil_r.
Qed.

(** The names shown after fields were put at index 3 of the first
    fieldset: those shown before, and the new ones. *)
Lemma elem_of_names_with_extra_fields extra first tail name :
  name ∈ fieldset_names (with_extra_fields extra (first :: tail))
  ↔ name ∈ fieldset_names (first :: tail) ∨ name ∈ extra.
Proof.
  cbn [with_extra_fields]. rewrite !fieldset_names_cons.
  cbn [with_fields fs_fields].
  rewrite <-(take_drop 3 (fs_fields first)) at 3.
  rewrite !flatten_app, flatten_fields, !elem_of_app. tauto.
Qed.

End fieldset_names_facts.

(** X10.  [product_fieldsets] fails exactly when [DisplayableAdmin] has
    no fieldset.  Otherwise the first fieldset gets "available" and
    "manufacturer" after its first two fields (at its end when it has
    fewer) and "content" and "categories" at its end; the section for
    new variations, when there is one, comes second; the other fieldsets
    follow unchanged; the section of the other products, when there are
    any, is last. *)
Theorem product_fieldsets_form (settings : Settings)
    (option_fields : list string) (displayable : list Fieldset) :
  match displayable with
  | [] =>
      product_fieldsets settings option_fields displayable = Raise IndexError
  | first :: others =>
      product_fieldsets settings option_fields displayable
      = Ok (with_fields first
              (take 2 (fs_fields first)
               ++ [Field "available"; Field "manufacturer"]
               ++ drop 2 (fs_fields first)
               ++ [Field "content"; Field "categories"])
            :: (if SHOP_USE_VARIATIONS settings
                then [create_variations_fieldset option_fields] else [])
            ++ others
            ++ match other_product_fields settings with
               | [] => []
               | _ :: _ => [other_products_fieldset settings]
               end)
  end.
Proof.
  destruct displayable as [| first others]; [done |].
  apply product_fieldsets_cons.
Qed.

(** X11.  Every field [ProductAdmin] filters horizontally is shown in
    its fieldsets, whatever the settings and the fieldsets of
    [DisplayableAdmin]; and every field one of the four subclass admins
    filters horizontally is shown in the fieldsets of that admin. *)
Theorem filter_horizontal_in_fieldsets (settings : Settings)
    (option_fields : list string) (displayable value : list Fieldset) :
  product_fieldsets settings option_fields displayable = Ok value →
  Forall (λ f, f ∈ fieldset_names value)
    (ProductAdmin_filter_horizontal settings)
  ∧ Forall (λ f, f ∈ fieldset_names (with_extra_fields portal_fields value))
      (ProductPortalAdmin_filter_horizontal settings)
  ∧ Forall (λ f, f ∈ fieldset_names (with_extra_fields facing_fields value))
      (ProductFacingAdmin_filter_horizontal settings)
  ∧ Forall (λ f, f ∈ fieldset_names (with_extra_fields hearth_fields value))
      (ProductHearthAdmin_filter_horizontal settings)
  ∧ Forall (λ f, f ∈ fieldset_names (with_extra_fields topka_fields value))
      (ProductTopkaAdmin_filter_horizontal settings).
Proof.
  intros Hvalue.
  assert (Forall (λ f, f ∈ fieldset_names value)
            (ProductAdmin_filter_horizontal settings)) as Hproduct.
  { destruct displayable as [| first others]; [done |].
    rewrite product_fieldsets_cons in Hvalue. injection Hvalue as <-.
    unfold ProductAdmin_filter_horizontal.
    rewrite fieldset_names_cons, !fieldset_names_app.
    apply Forall_app. split.
    - constructor; [| constructor].
      apply elem_of_app. left. cbn [with_fields fs_fields].
      rewrite flatten_app, !flatten_cons, flatten_app, !flatten_cons.
      cbn [entry_names]. rewrite !elem_of_app, !elem_of_cons. auto 10.
    - apply Forall_forall. intros f Hf.
      rewrite !elem_of_app. do 3 right.
      destruct (other_product_fields settings) as [| o os] eqn:Hother;
        [by apply elem_of_nil in Hf |].
      rewrite fieldset_names_cons. apply elem_of_app. left.
      unfold other_products_fieldset. cbn [fs_fields].
      by rewrite flatten_fields, Hother. }
  split; [done |].
  destruct value as [| first tail].
  { destruct displayable; [done |].
    by rewrite product_fieldsets_cons in Hvalue. }
  assert (∀ extra own,
            Forall (λ f, f ∈ extra) own →
            Forall (λ f, f ∈ fieldset_names
                               (with_extra_fields extra (first :: tail)))
              (ProductAdmin_filter_horizontal settings ++ own)) as Hsub.
  { intros extra own Hown. apply Forall_app. split.
    - eapply Forall_impl; [exact Hproduct |]. intros f Hf.
      apply elem_of_names_with_extra_fields. by left.
    - eapply Forall_impl; [exact Hown |]. intros f Hf.
      apply elem_of_names_with_extra_fields. by right. }
  repeat split; apply Hsub; apply (bool_decide_unpack _); reflexivity.
Qed.

Lemma filter_horizontal_in_fieldsets_witness :
  product_fieldsets Sample.settings Sample.option_fields Sample.displayable
  = Ok Sample.product_fieldsets_value
  ∧ Forall (λ f, f ∈ fieldset_names Sample.product_fieldsets_value)
      ["categories"; "related_products"].
Proof.
  split; [reflexivity |].
  exact (proj1 (filter_horizontal_in_fieldsets Sample.settings
                  Sample.option_fields Sample.displayable
                  Sample.product_fieldsets_value eq_refl)).
Defined.

Section category_fieldsets_facts.

Lemma update_fields_head g first others :
  update_fields 0 g (first :: others)
  = Ok (with_fields first (g (fs_fields first)) :: others).
Proof. reflexivity. Qed.

Lemma update_fields_last g fsets last :
  update_fields (length (fsets ++ [last]) - 1) g (fsets ++ [last])
  = Ok (fsets ++ [with_fields last (g (fs_fields last))]).
Proof.
  unfold update_fields.
  replace (length (fsets ++ [last]) - 1) with (length fsets)
    by (rewrite length_app; cbn; lia).
  rewrite list_lookup_middle by done.
  replace (length fsets) with (length fsets + 0) at 1 by lia.
  by rewrite insert_app_r.
Qed.

Lemma insert_after_slice {A} (x : A) xs l :
  3 ≤ length l →
  Py.insert 3 x (Py.slice_assign 3 3 xs l) = take 3 l ++ [x] ++ xs ++ drop 3 l.
Proof.
  intros Hl. unfold Py.insert, Py.slice_assign.
  rewrite take_app_length', drop_app_length' by (by rewrite length_take_le).
  done.
Qed.

End category_fieldsets_facts.

(** X12.  [category_fieldsets] fails exactly when [PageAdmin] has no
    fieldset.  Otherwise the category fields are put at index 3 of the
    first fieldset, the other fieldsets follow unchanged, and the section
    "Product filters" is last, with "options" as its first field exactly
    when [SHOP_USE_VARIATIONS] is on.  With the featured image in use and
    at least three fields in the first fieldset of the page,
    "featured_image" comes right before the category fields. *)
Theorem category_fieldsets_form (SHOP_CATEGORY_USE_FEATURED_IMAGE : bool)
    (settings : Settings) (page : list Fieldset) :
  match page with
  | [] =>
      category_fieldsets SHOP_CATEGORY_USE_FEATURED_IMAGE settings page
      = Raise IndexError
  | first :: others =>
      let fields :=
        Py.slice_assign 3 3 category_fields (fs_fields first) in
      let fields :=
        if SHOP_CATEGORY_USE_FEATURED_IMAGE
        then Py.insert 3 (Field "featured_image") fields else fields in
      category_fieldsets SHOP_CATEGORY_USE_FEATURED_IMAGE settings page
      = Ok (with_fields first fields
            :: others
            ++ [with_fields product_filters_fieldset
                  ((if SHOP_USE_VARIATIONS settings
                    then [Field "options"] else [])
                   ++ [ Field "sale"; Group ["price_min"; "price_max"];
                        Field "combined" ])])
      ∧ (3 ≤ length (fs_fields first) →
         fields
         = take 3 (fs_fields first)
           ++ (if SHOP_CATEGORY_USE_FEATURED_IMAGE
               then [Field "featured_image"] else [])
           ++ category_fields ++ drop 3 (fs_fields first))
  end.
Proof.
  destruct page as [| first others]; [done |].
  cbn zeta. split.
  - unfold category_fieldsets. rewrite update_fields_head.
    destruct SHOP_CATEGORY_USE_FEATURED_IMAGE.
    + change ((with_fields first
                 (Py.slice_assign 3 3 category_fields (fs_fields first))
               :: others) ++ [product_filters_fieldset])
        with (with_fields first
                (Py.slice_assign 3 3 category_fields (fs_fields first))
              :: (others ++ [product_filters_fieldset])).
      rewrite update_fields_head. cbn [with_fields fs_fields fs_title fs_classes].
      destruct (SHOP_USE_VARIATIONS settings); [| done].
      rewrite (app_comm_cons others).
      by rewrite update_fields_last.
    + destruct (SHOP_USE_VARIATIONS settings); [| done].
      by rewrite update_fields_last.
  - intros Hlen. destruct SHOP_CATEGORY_USE_FEATURED_IMAGE.
    + by apply insert_after_slice.
    + done.
Qed.

(** With fewer than three fields in the first fieldset of the page the
    featured image lands among the category fields. *)
Example category_fieldsets_short :
  category_fieldsets true Sample.settings
    [ {| fs_title := None; fs_fields := [Field "title"];
         fs_classes := None |} ]
  = Ok [ {| fs_title := None;
            fs_fields := [ Field "title"; Field "content";
                           Field "show_content"; Field "featured_image";
                           Field "products"; Field "use_grouped_products" ];
            fs_classes := None |};
         {| fs_title := Some "Product filters";
            fs_fields := [ Field "options"; Field "sale";
                           Group ["price_min"; "price_max"];
                           Field "combined" ];
            fs_classes := Some ["collapse-closed"] |} ].
Proof. reflexivity. Qed.

(** ** The fieldsets of [OrderAdmin] *)

Section order_fields.

Lemma elem_of_flds order_fields s name :
  name ∈ _flds order_fields s
  ↔ name ∈ order_fields ∧ ∃ rest, name = s +:+ rest.
Proof.
  unfold _flds. rewrite list_elem_of_filter, startswith_spec. tauto.
Qed.

End order_fields.

(** X13.  The first two fieldsets of [OrderAdmin] show the fields of
    [Order] whose names start with "billing_detail" and with
    "shipping_detail": each such field once, in the order of the model,
    and no field in both; the third fieldset shows eight fixed
    fields. *)
Theorem order_fieldsets_show_address_fields (order_fields : list string) :
  (λ f, flatten (fs_fields f)) <$> OrderAdmin_fieldsets order_fields
  = [ billing_fields order_fields;
      shipping_fields order_fields;
      [ "additional_instructions"; "shipping_total"; "shipping_type";
        "discount_total"; "discount_code"; "item_total"; "total";
        "status" ] ]
  ∧ (∀ name, name ∈ billing_fields order_fields
             ↔ name ∈ order_fields ∧ ∃ rest, name = "billing_detail" +:+ rest)
  ∧ (∀ name, name ∈ shipping_fields order_fields
             ↔ name ∈ order_fields
               ∧ ∃ rest, name = "shipping_detail" +:+ rest)
  ∧ billing_fields order_fields `sublist_of` order_fields
  ∧ shipping_fields order_fields `sublist_of` order_fields
  ∧ (∀ name, name ∈ billing_fields order_fields →
             name ∉ shipping_fields order_fields).
Proof.
  split.
  { cbn. by rewrite !address_pairs_pair_up, !flatten_pair_up. }
  split; [intros name; apply elem_of_flds |].
  split; [intros name; apply elem_of_flds |].
  split; [apply sublist_filter |]. split; [apply sublist_filter |].
  intros name [_ [rest1 ->]]%elem_of_flds [_ [rest2 Heq]]%elem_of_flds.
  discriminate Heq.
Qed.

(** ** The outcomes of [change_view] *)

(** X14.  [change_view] hands over to the change view of the framework,
    with the object id it was given, exactly when the admin is not that
    of [Product] or the product found has no content model; it redirects
    exactly when the admin is that of [Product] and the product found has
    one, and then to the change page of the content model. *)
Theorem change_view_outcomes (site : Site) (self : ProductAdmin)
    (object_id : string) :
  (∀ object_id',
     change_view site self object_id = Ok (SuperChangeView object_id')
     ↔ object_id' = object_id
       ∧ (model self ≠ Product
          ∨ ∃ product, find_product site object_id = Ok (Some product)
                       ∧ get_content_model site product = None))
  ∧ (∀ url,
       change_view site self object_id = Ok (HttpResponseRedirect url)
       ↔ model self = Product
         ∧ ∃ product content_model,
             find_product site object_id = Ok (Some product)
             ∧ get_content_model site product = Some content_model
             ∧ url = admin_url site (obj_class content_model) "change"
                       (obj_id content_model)).
Proof.
  unfold change_view, get_object_or_404. split.
  - intros object_id'. case_decide as Hmodel.
    + destruct (find_product site object_id) as [[product |] | e] eqn:Hfind.
      * destruct (get_content_model site product) as [cm |] eqn:Hcm.
        -- split; [done |]. intros [_ [? | (p & [= <-] & ?)]]; congruence.
        -- split; [intros [= <-]; eauto 6 |]. by intros [-> _].
      * split; [done |]. intros [_ [? | (p & ? & _)]]; congruence.
      * split; [done |]. intros [_ [? | (p & ? & _)]]; congruence.
    + split; [intros [= <-]; auto |]. by intros [-> _].
  - intros url. case_decide as Hmodel.
    + destruct (find_product site object_id) as [[product |] | e] eqn:Hfind.
      * destruct (get_content_model site product) as [cm |] eqn:Hcm.
        -- split; [intros [= <-]; eauto 8 |].
           intros [_ (p & cm' & [= <-] & Hcm' & ->)]. congruence.
        -- split; [done |]. intros [_ (p & cm' & [= <-] & ? & _)]. congruence.
      * split; [done |]. by intros [_ (p & cm' & ? & _)].
      * split; [done |]. by intros [_ (p & cm' & ? & _)].
    + split; [done |]. by intros [? _].
Qed.

(** ** [address_pairs] and concatenation *)

(** X15.  Laying out an even number of fields followed by other fields
    gives the layout of the first followed by the layout of the
    others. *)
Theorem address_pairs_app (fields1 fields2 : list string) :
  length fields1 `mod` 2 = 0 →
  address_pairs (fields1 ++ fields2)
  = address_pairs fields1 ++ address_pairs fields2.
Proof.
  rewrite !address_pairs_pair_up.
  induction fields1 as [| a | a b fields1 IH] using list_pair_ind.
  - done.
  - done.
  - rewrite length_mod2_cons2. intros Heven. cbn. by rewrite IH.
Qed.

Lemma address_pairs_app_witness :
  length ["a"; "b"] `mod` 2 = 0
  ∧ address_pairs (["a"; "b"] ++ ["c"])
    = address_pairs ["a"; "b"] ++ address_pairs ["c"].
Proof.
  split; [reflexivity |].
  exact (address_pairs_app ["a"; "b"] ["c"] eq_refl).
Defined.

(** ** Copies of the fieldsets of [ProductAdmin] *)

Section copies.

(** The rest of a copy after the list at [l0], that of the first
    fieldset, has been changed by [g]: it denotes what the original did,
    unless a fieldset shares the list of the first. *)
Lemma copy_tail_load (g : list FieldEntry → list FieldEntry)
    (σ σ1 σ2 : store) (l0 : loc) (r0 : FieldsetRef)
    (rs copy : list FieldsetRef) (tail : list Fieldset) :
  Forall2 (λ r r',
    r_title r' = r_title r ∧ r_classes r' = r_classes r
    ∧ σ !! r_fields r' = None
    ∧ σ2 !! r_fields r' = σ !! r_fields r
    ∧ match (<[r_fields r0 := l0]> ∅ : gmap loc loc) !! r_fields r with
      | Some l => r_fields r' = l
      | None => σ1 !! r_fields r' = None
      end) rs copy →
  is_Some (σ1 !! l0) →
  Forall2 (λ r f, load_fieldset σ r = Some f) rs tail →
  ∃ tail',
    Forall2 (λ r' f, load_fieldset (alter g l0 σ2) r' = Some f) copy tail'
    ∧ (r_fields r0 ∉ r_fields <$> rs → tail' = tail).
Proof.
  intros Hall Hl0. revert tail.
  induction Hall as [| r r' rs copy Hr Hall IH]; intros tail Hrs.
  { exists []. split; [constructor |].
    intros _. by apply Forall2_nil_inv_l in Hrs. }
  apply Forall2_cons_inv_l in Hrs as (f & tail0 & Hf & Hrs & ->).
  destruct (IH tail0 Hrs) as (tail' & Htail' & Hnodup).
  destruct Hr as (Htitle & Hclasses & Hnew & Hlist & Hshare).
  unfold load_fieldset in Hf.
  destruct (σ !! r_fields r) as [fields |] eqn:Hfields; [| done].
  cbn in Hf. injection Hf as <-.
  destruct (decide (r_fields r' = l0)) as [Heq | Hne].
  - exists ({| fs_title := r_title r; fs_fields := g fields;
               fs_classes := r_classes r |} :: tail').
    split.
    + constructor; [| done]. unfold load_fieldset.
      rewrite Heq, lookup_alter_eq, <-Heq, Hlist. cbn.
      by rewrite Htitle, Hclasses.
    + intros Hr0. exfalso. apply Hr0. cbn [fmap list_fmap].
      destruct (decide (r_fields r = r_fields r0)) as [Heq' | Hne'].
      * rewrite <-Heq'. left.
      * rewrite lookup_insert_ne, lookup_empty in Hshare by done.
        rewrite Heq in Hshare. destruct Hl0 as [? Hl0]. congruence.
  - exists ({| fs_title := r_title r; fs_fields := fields;
               fs_classes := r_classes r |} :: tail').
    split.
    + constructor; [| done]. unfold load_fieldset.
      rewrite lookup_alter_ne by done. rewrite Hlist. cbn.
      by rewrite Htitle, Hclasses.
    + intros Hr0. f_equal. apply Hnodup.
      intros Hin. apply Hr0. cbn [fmap list_fmap]. by right.
Qed.

(** A copy whose first list is then changed in place by [g]. *)
Lemma deepcopy_alter_first (g : list FieldEntry → list FieldEntry)
    (rs : list FieldsetRef) (σ : store) (first : Fieldset)
    (tail : list Fieldset) :
  load σ rs = Some (first :: tail) →
  ∃ first' rest' σ1 tail',
    deepcopy rs σ = (first' :: rest', σ1)
    ∧ σ ⊆ alter g (r_fields first') σ1
    ∧ Forall (λ r, σ !! r_fields r = None) (first' :: rest')
    ∧ load (alter g (r_fields first') σ1) (first' :: rest')
      = Some (with_fields first (g (fs_fields first)) :: tail')
    ∧ (NoDup (r_fields <$> rs) → tail' = tail).
Proof.
  intros Hload.
  destruct rs as [| r0 rs]; [done |].
  pose proof (load_is_Some _ _ _ Hload) as Hsome.
  unfold load in Hload. apply mapM_Some in Hload.
  apply Forall2_cons_inv_l in Hload as (? & ? & Hr0 & Hrs & [= <- <-]).
  unfold load_fieldset in Hr0.
  destruct (σ !! r_fields r0) as [fields0 |] eqn:Hfields0; [| done].
  cbn in Hr0. injection Hr0 as <-. cbn [fs_fields with_fields].
  unfold deepcopy. cbn [deepcopy_memo]. rewrite lookup_empty.
  set (l0 := fresh (dom σ)).
  assert (σ !! l0 = None) as Hl0 by apply not_elem_of_dom, is_fresh.
  rewrite Hfields0. change (default [] (Some fields0)) with fields0.
  set (σ1 := <[l0 := fields0]> σ).
  destruct (deepcopy_memo rs (<[r_fields r0 := l0]> ∅) σ1)
    as [copy σ2] eqn:Hcopy.
  assert (σ ⊆ σ1) as Hσ1 by by apply insert_subseteq.
  destruct (deepcopy_memo_spec σ rs (<[r_fields r0 := l0]> ∅) σ1 copy σ2)
    as [Hσ2 Hall]; [done | | | done |].
  { intros r Hr. apply Hsome. by right. }
  { intros l l' [[<- <-] | [_ []%lookup_empty_Some]]%lookup_insert_Some.
    split; [done |]. subst σ1. by rewrite lookup_insert_eq, Hfields0. }
  assert (σ2 !! l0 = Some fields0) as Hl0'.
  { apply (lookup_weaken σ1); [| done].
    subst σ1. by rewrite lookup_insert_eq. }
  set (σ3 := alter g l0 σ2).
  destruct (copy_tail_load g σ σ1 σ2 l0 r0 rs copy tail Hall)
    as (tail' & Htail' & Hnodup0); [| done |].
  { subst σ1. by rewrite lookup_insert_eq. }
  fold σ3 in Htail'.
  assert (NoDup (r_fields <$> r0 :: rs) → tail' = tail) as Hnodup.
  { cbn [fmap list_fmap]. intros [Hr0 _]%NoDup_cons. by apply Hnodup0. }
  exists (with_loc r0 l0), copy, σ2, tail'.
  cbn [with_loc r_fields]. fold σ3.
  split; [done |]. split.
  { apply map_subseteq_spec. intros l x Hl. subst σ3.
    rewrite lookup_alter_ne by congruence.
    apply (lookup_weaken σ); [done | by etrans]. }
  split.
  { constructor; [done |].
    eapply Forall2_Forall_r; [exact Hall |]. apply Forall_forall.
    intros r _ r'. tauto. }
  split; [| done].
  unfold load. apply mapM_Some. constructor; [| done].
  unfold load_fieldset. cbn [with_loc r_fields r_title r_classes].
  subst σ3. by rewrite lookup_alter_eq, Hl0'.
Qed.

(** The run of [extended_fieldsets]. *)
Lemma extended_fieldsets_run (extra : list string)
    (ProductAdmin_fieldsets : list FieldsetRef) (σ : store)
    (first : Fieldset) (tail : list Fieldset) :
  load σ ProductAdmin_fieldsets = Some (first :: tail) →
  ∃ copy σ' tail',
    extended_fieldsets extra ProductAdmin_fieldsets σ = Ok (copy, σ')
    ∧ σ ⊆ σ'
    ∧ Forall (λ r, σ !! r_fields r = None) copy
    ∧ load σ' copy
      = Some (with_fields first
                (take 3 (fs_fields first) ++ (Field <$> extra)
                 ++ drop 3 (fs_fields first)) :: tail')
    ∧ (NoDup (r_fields <$> ProductAdmin_fieldsets) → tail' = tail).
Proof.
  intros Hload.
  destruct (deepcopy_alter_first (Py.slice_assign 3 3 (Field <$> extra))
              ProductAdmin_fieldsets σ first tail Hload)
    as (first' & rest' & σ1 & tail' & Hcopy & Hsub & Hnew & Hvalue & Hnodup).
  unfold extended_fieldsets. rewrite Hcopy.
  by eexists _, _, tail'.
Qed.

End copies.

(** X16.  The fieldsets of a product subclass are a copy of those of
    [ProductAdmin] with the fields of the subclass at index 3 of the
    first fieldset.  Making them changes no list that was there before:
    [ProductAdmin.fieldsets], and any fieldsets made earlier, denote what
    they did; the lists of the copy are new. *)
Theorem extended_fieldsets_copy (extra : list string)
    (ProductAdmin_fieldsets : list FieldsetRef) (σ : store)
    (first : Fieldset) (tail : list Fieldset) :
  load σ ProductAdmin_fieldsets = Some (first :: tail) →
  ∃ copy σ' tail',
    extended_fieldsets extra ProductAdmin_fieldsets σ = Ok (copy, σ')
    ∧ (∀ l fields, σ !! l = Some fields → σ' !! l = Some fields)
    ∧ (∀ other v, load σ other = Some v → load σ' other = Some v)
    ∧ Forall (λ r, σ !! r_fields r = None) copy
    ∧ load σ' copy
      = Some (with_fields first
                (take 3 (fs_fields first) ++ (Field <$> extra)
                 ++ drop 3 (fs_fields first)) :: tail')
    ∧ (NoDup (r_fields <$> ProductAdmin_fieldsets) → tail' = tail).
Proof.
  intros Hload.
  destruct (extended_fieldsets_run extra ProductAdmin_fieldsets σ first tail
              Hload)
    as (copy & σ' & tail' & Hcopy & Hsub & Hnew & Hvalue & Hnodup).
  exists copy, σ', tail'. split; [done |].
  split; [intros l fields Hl; by eapply lookup_weaken |].
  split; [intros other v; by apply load_weaken |].
  done.
Qed.

Lemma extended_fieldsets_copy_witness :
  load Sample.store Sample.ProductAdmin_fieldsets
  = Some Sample.product_fieldsets_value
  ∧ ∃ copy σ',
      portal_fieldsets Sample.ProductAdmin_fieldsets Sample.store
      = Ok (copy, σ')
      ∧ load σ' Sample.ProductAdmin_fieldsets
        = Some Sample.product_fieldsets_value.
Proof.
  split; [reflexivity |].
  destruct (extended_fieldsets_copy portal_fields
              Sample.ProductAdmin_fieldsets Sample.store _ _ eq_refl)
    as (copy & σ' & tail' & Hcopy & _ & Hothers & _).
  exists copy, σ'. split; [exact Hcopy |].
  apply Hothers. reflexivity.
Defined.

(** X17.  An admin whose fieldsets were made in this way, with at least
    one field of the subclass, is left as it is by [__init__]: its
    fieldsets differ from those of [ProductAdmin], so nothing is copied
    and no model field is inserted. *)
Theorem init_keeps_extended_fieldsets (extra : list string)
    (ProductAdmin_fieldsets : list FieldsetRef)
    (meta_fields : ModelClass → list ModelField) (σ σ' : store)
    (value : list Fieldset) (copy : list FieldsetRef) (self : ProductAdmin) :
  load σ ProductAdmin_fieldsets = Some value →
  extended_fieldsets extra ProductAdmin_fieldsets σ = Ok (copy, σ') →
  extra ≠ [] →
  fieldsets self = copy →
  __init__ ProductAdmin_fieldsets meta_fields self σ' = Ok (self, σ').
Proof.
  intros Hload Hcopy Hextra Hself.
  destruct value as [| first tail].
  { destruct ProductAdmin_fieldsets as [| r rs]; [done |].
    unfold load in Hload. apply mapM_Some in Hload.
    by apply Forall2_nil_inv_r in Hload. }
  destruct (extended_fieldsets_run extra ProductAdmin_fieldsets σ first
              tail Hload)
    as (copy0 & σ0 & tail' & Hcopy0 & Hsub & _ & Hvalue & _).
  rewrite Hcopy in Hcopy0. injection Hcopy0 as <- <-.
  unfold __init__. rewrite decide_False; [done |].
  intros [_ Heq]. rewrite Hself, Hvalue in Heq.
  rewrite (load_weaken σ σ' _ _ Hsub Hload) in Heq.
  injection Heq as Heq _.
  apply (f_equal (λ f, length (fs_fields f))) in Heq.
  cbn [with_fields fs_fields] in Heq.
  rewrite !length_app, length_take, length_drop, length_fmap in Heq.
  destruct extra; [done |]. cbn [length] in Heq. lia.
Qed.

Lemma init_keeps_extended_fieldsets_witness :
  load Sample.store Sample.ProductAdmin_fieldsets
  = Some Sample.product_fieldsets_value
  ∧ portal_fields ≠ []
  ∧ ∃ copy σ',
      portal_fieldsets Sample.ProductAdmin_fieldsets Sample.store
      = Ok (copy, σ')
      ∧ let self := set_fieldsets Sample.stone_admin copy in
        __init__ Sample.ProductAdmin_fieldsets Sample.meta_fields self σ'
        = Ok (self, σ').
Proof.
  split; [reflexivity |]. split; [discriminate |].
  destruct (portal_fieldsets Sample.ProductAdmin_fieldsets Sample.store)
    as [[copy σ'] | e] eqn:Hcopy; [| vm_compute in Hcopy; discriminate Hcopy].
  exists copy, σ'. split; [reflexivity |].
  exact (init_keeps_extended_fieldsets portal_fields
           Sample.ProductAdmin_fieldsets Sample.meta_fields Sample.store σ'
           Sample.product_fieldsets_value copy
           (set_fieldsets Sample.stone_admin copy) eq_refl Hcopy
           ltac:(discriminate) eq_refl).
Defined.

(** ** What [__init__] leaves as it is *)

Section init_framing.

Lemma insert_extra_fields_nil check fields (σ σ' : store) :
  insert_extra_fields [] check fields σ = Ok σ' → σ' = σ.
Proof.
  induction fields as [| field fields IH]; cbn; [congruence |].
  destruct (is_extra_field check field); [done | exact IH].
Qed.

(** Whatever branch [__init__] takes, the store only grows and the
    instance changes in its own fieldsets at most. *)
Lemma init_run_frame ProductAdmin_fieldsets meta_fields self (σ : store)
    self' σ' :
  is_Some (load σ (fieldsets self)) →
  __init__ ProductAdmin_fieldsets meta_fields self σ = Ok (self', σ') →
  σ ⊆ σ'
  ∧ (self' = self ∨ ∃ rs, self' = set_fieldsets self rs).
Proof.
  intros [value Hvalue]. unfold __init__.
  case_decide as Hcond; [| intros [= <- <-]; eauto].
  destruct value as [| first tail].
  - destruct (fieldsets self) as [| r rs] eqn:Hrs.
    + cbn.
      destruct (insert_extra_fields _ _ _ _) as [σ2 |] eqn:Hloop; [| done].
      intros [= <- <-]. apply insert_extra_fields_nil in Hloop as ->. eauto.
    + unfold load in Hvalue. apply mapM_Some in Hvalue.
      by apply Forall2_nil_inv_r in Hvalue.
  - destruct (deepcopy_alter_first id (fieldsets self) σ first tail Hvalue)
      as (first' & rest' & σ1 & tail' & -> & Hsub & Hnew & _).
    apply Forall_cons in Hnew as [Hnew _].
    set (self1 := set_fieldsets self (first' :: rest')).
    change (fieldsets self1) with (first' :: rest').
    destruct (insert_extra_fields_spec first' rest'
                (check_fields (meta_fields Product) self1)
                (reverse (meta_fields (model self1))) σ1)
      as (σ3 & -> & _ & Hothers).
    intros [= <- <-]. split; [| eauto].
    apply map_subseteq_spec. intros l x Hl.
    assert (l ≠ r_fields first') as Hne by congruence.
    rewrite Hothers by done.
    rewrite <-(lookup_alter_ne id σ1 (r_fields first') l) by done.
    by apply (lookup_weaken σ).
Qed.

End init_framing.

(** X18.  [__init__] changes no list that was in the store and none of
    the attributes [model], [exclude], [_product], [_images_formset] of
    the instance, nor the fieldsets of its class; for the admin of
    [Product] itself it changes nothing at all. *)
Theorem init_frame (ProductAdmin_fieldsets : list FieldsetRef)
    (meta_fields : ModelClass → list ModelField) (self self' : ProductAdmin)
    (σ σ' : store) :
  is_Some (load σ (fieldsets self)) →
  __init__ ProductAdmin_fieldsets meta_fields self σ = Ok (self', σ') →
  (∀ l fields, σ !! l = Some fields → σ' !! l = Some fields)
  ∧ (∀ other v, load σ other = Some v → load σ' other = Some v)
  ∧ model self' = model self
  ∧ admin_class_fieldsets self' = admin_class_fieldsets self
  ∧ exclude self' = exclude self
  ∧ form_meta_exclude self' = form_meta_exclude self
  ∧ _product self' = _product self
  ∧ _images_formset self' = _images_formset self
  ∧ (model self = Product → self' = self ∧ σ' = σ).
Proof.
  intros Hload Hinit.
  destruct (init_run_frame _ _ _ _ _ _ Hload Hinit) as [Hsub Hself].
  split; [intros l fields Hl; by eapply lookup_weaken |].
  split; [intros other v; by apply load_weaken |].
  split; [by destruct Hself as [-> | [rs ->]] |].
  split; [by destruct Hself as [-> | [rs ->]] |].
  split; [by destruct Hself as [-> | [rs ->]] |].
  split; [by destruct Hself as [-> | [rs ->]] |].
  split; [by destruct Hself as [-> | [rs ->]] |].
  split; [by destruct Hself as [-> | [rs ->]] |].
  intros Hmodel. unfold __init__ in Hinit.
  rewrite decide_False in Hinit by (by intros [? _]).
  by injection Hinit as <- <-.
Qed.

Lemma init_frame_witness :
  is_Some (load Sample.store (fieldsets Sample.stone_admin))
  ∧ ∃ self' σ',
      __init__ Sample.ProductAdmin_fieldsets Sample.meta_fields
        Sample.stone_admin Sample.store = Ok (self', σ')
      ∧ model self' = ProductStone
      ∧ _product self' = None.
Proof.
  assert (is_Some (load Sample.store (fieldsets Sample.stone_admin)))
    as Hload by (eexists; reflexivity).
  split; [exact Hload |].
  destruct (__init__ Sample.ProductAdmin_fieldsets Sample.meta_fields
              Sample.stone_admin Sample.store)
    as [[self' σ'] | e] eqn:Hinit; [| vm_compute in Hinit; discriminate Hinit].
  exists self', σ'. split; [reflexivity |].
  pose proof (init_frame Sample.ProductAdmin_fieldsets Sample.meta_fields
                Sample.stone_admin self' Sample.store σ' Hload Hinit)
    as (_ & _ & Hmodel & _ & _ & _ & Hproduct & _).
  split; [exact Hmodel | exact Hproduct].
Defined.

(** ** Registration *)

(** X19.  With [SHOP_USE_VARIATIONS] on or off no model is registered
    twice, so every registration is accepted; [ProductOption] is
    registered exactly when the setting is on; and of the models
    registered with [ProductAdmin] or a class derived from it, which are
    [Product] and its five subclasses, only [Product] is in the menu. *)
Theorem registrations_accepted (settings : Settings) :
  Registry.register_all (registrations settings) []
  = Some (registrations settings)
  ∧ NoDup (registrations settings).*1
  ∧ (ProductOption ∈ (registrations settings).*1
     ↔ SHOP_USE_VARIATIONS settings = true)
  ∧ (filter (λ r, Registry.is_ProductAdmin r.2 = true)
       (registrations settings)).*1
    = [ Product; ProductTopka; ProductHearth; ProductPortal; ProductFacing;
        ProductStone ]
  ∧ (∀ m a class_fieldsets,
       (m, a) ∈ registrations settings →
       Registry.is_ProductAdmin a = true →
       in_menu (new_admin m class_fieldsets) = bool_decide (m = Product)
       ∧ (in_menu (new_admin m class_fieldsets) = true
          ↔ (m, a) = (Product, Registry.ProductAdmin))).
Proof.
  unfold registrations.
  destruct (SHOP_USE_VARIATIONS settings).
  - split; [reflexivity |]. split; [apply (bool_decide_unpack _); reflexivity |].
    split; [split; [done |]; intros _; apply (bool_decide_unpack _);
            reflexivity |].
    split; [reflexivity |].
    intros m a class_fieldsets Hin Ha. split; [done |].
    rewrite !elem_of_app, !elem_of_cons, !elem_of_nil in Hin.
    unfold in_menu. cbn [new_admin model].
    destruct Hin as [[? | [? | []]] | [[? | []] | Hin]]; simplify_eq; try done.
    destruct Hin as [? | [? | [? | [? | [? | [? | [? | [? | []]]]]]]]];
      simplify_eq; done.
  - split; [reflexivity |]. split; [apply (bool_decide_unpack _); reflexivity |].
    split.
    { split; [| done]. intros Hin. exfalso. revert Hin.
      apply (bool_decide_unpack _). reflexivity. }
    split; [reflexivity |].
    intros m a class_fieldsets Hin Ha. split; [done |].
    rewrite !elem_of_app, !elem_of_cons, !elem_of_nil in Hin.
    unfold in_menu. cbn [new_admin model].
    destruct Hin as [[? | [? | []]] | [[] | Hin]]; simplify_eq; try done.
    destruct Hin as [? | [? | [? | [? | [? | [? | [? | [? | []]]]]]]]];
      simplify_eq; done.
Qed.

(** ** The module, loaded *)

Section loaded.

Lemma store_fieldsets_spec value (σ : store) rs σ' :
  store_fieldsets value σ = (rs, σ') →
  σ ⊆ σ'
  ∧ load σ' rs = Some value
  ∧ NoDup (r_fields <$> rs)
  ∧ Forall (λ r, σ !! r_fields r = None) rs.
Proof.
  revert σ rs σ'. induction value as [| f value IH]; intros σ rs σ' Hstore.
  { injection Hstore as <- <-. split; [done |]. split; [done |].
    split; constructor. }
  cbn [store_fieldsets] in Hstore.
  set (l := fresh (dom σ)) in *.
  assert (σ !! l = None) as Hl by apply not_elem_of_dom, is_fresh.
  destruct (store_fieldsets value (<[l := fs_fields f]> σ))
    as [rs0 σ0] eqn:Hrest.
  injection Hstore as <- <-.
  destruct (IH _ _ _ Hrest) as (Hsub & Hload & Hnodup & Hnew).
  assert (σ ⊆ <[l := fs_fields f]> σ) as Hsub0 by by apply insert_subseteq.
  assert (σ0 !! l = Some (fs_fields f)) as Hl0.
  { apply (lookup_weaken (<[l := fs_fields f]> σ)); [| done].
    by rewrite lookup_insert_eq. }
  split; [by etrans |]. split.
  { unfold load in *. apply mapM_Some. constructor.
    - unfold load_fieldset. cbn. rewrite Hl0. cbn. by destruct f.
    - by apply mapM_Some. }
  split.
  - cbn. apply NoDup_cons. split; [| done].
    intros (r & Hr & Hin)%list_elem_of_fmap.
    rewrite Forall_forall in Hnew. apply Hnew in Hin.
    rewrite <-Hr, lookup_insert_eq in Hin. done.
  - constructor; [done |].
    eapply Forall_impl; [exact Hnew |]. intros r Hr. cbn in Hr.
    by eapply lookup_weaken_None.
Qed.

(** [__init__] on an admin whose fieldsets differ from those of
    [ProductAdmin]. *)
Lemma init_differs ProductAdmin_fieldsets meta_fields self (σ : store) v1 v2 :
  load σ (fieldsets self) = Some v1 →
  load σ ProductAdmin_fieldsets = Some v2 →
  v1 ≠ v2 →
  __init__ ProductAdmin_fieldsets meta_fields self σ = Ok (self, σ).
Proof.
  intros H1 H2 Hne. unfold __init__. rewrite decide_False; [done |].
  intros [_ Heq]. congruence.
Qed.

Lemma extended_differs (first : Fieldset) tail extra :
  extra ≠ [] →
  with_fields first
    (take 3 (fs_fields first) ++ (Field <$> extra) ++ drop 3 (fs_fields first))
  :: tail ≠ first :: tail.
Proof.
  intros Hextra [= Heq].
  apply (f_equal (λ f, length (fs_fields f))) in Heq.
  cbn [with_fields fs_fields] in Heq.
  rewrite !length_app, length_take, length_drop, length_fmap in Heq.
  destruct extra; [done |]. cbn [length] in Heq. lia.
Qed.

Lemma init_Product ProductAdmin_fieldsets meta_fields self (σ : store) :
  model self = Product →
  __init__ ProductAdmin_fieldsets meta_fields self σ = Ok (self, σ).
Proof.
  intros Hmodel. unfold __init__. rewrite decide_False; [done |].
  by intros [? _].
Qed.

(** One copy for a subclass, on a store in which the fieldsets of
    [ProductAdmin] denote [first :: tail] and share no list. *)
Lemma extended_fieldsets_step extra product (σ : store) first tail :
  load σ product = Some (first :: tail) →
  NoDup (r_fields <$> product) →
  ∃ copy σ',
    extended_fieldsets extra product σ = Ok (copy, σ')
    ∧ σ ⊆ σ'
    ∧ load σ' copy = Some (with_extra_fields extra (first :: tail)).
Proof.
  intros Hload Hnodup.
  destruct (extended_fieldsets_run extra product σ first tail Hload)
    as (copy & σ' & tail' & Hcopy & Hsub & _ & Hvalue & Htail).
  exists copy, σ'. rewrite (Htail Hnodup) in Hvalue. done.
Qed.

(** [category_fieldsets] raises nothing but [IndexError]. *)
Lemma category_fieldsets_raises flag settings page e :
  category_fieldsets flag settings page = Raise e → e = IndexError.
Proof.
  unfold category_fieldsets, update_fields.
  repeat case_match; congruence.
Qed.

End loaded.

(** X20.  The fieldsets statements of the module raise [IndexError]
    when [PageAdmin] or [DisplayableAdmin] has no fieldset.  When both
    have one, these statements and the creation of the registered admins
    go through and leave every fieldsets attribute with its own lists:
    [CategoryAdmin.fieldsets] are the category fieldsets,
    [ProductAdmin.fieldsets] denotes the product fieldsets, the
    fieldsets of the four subclass admins denote them with the fields of
    the subclass at index 3, and none of these admins is changed by its
    [__init__]; only the admin of [ProductStone], registered with
    [ProductAdmin] itself, gets fieldsets of its own, with the editable
    fields the model adds to [Product]. *)
Theorem module_loaded (SHOP_CATEGORY_USE_FEATURED_IMAGE : bool)
    (settings : Settings) (option_fields : list string)
    (page displayable : list Fieldset)
    (meta_fields : ModelClass → list ModelField) (σ0 : store) :
  (page = [] ∨ displayable = [] →
   load_fieldsets SHOP_CATEGORY_USE_FEATURED_IMAGE settings option_fields
     page displayable σ0 = Raise IndexError)
  ∧ (∀ category value,
       category_fieldsets SHOP_CATEGORY_USE_FEATURED_IMAGE settings page
       = Ok category →
       product_fieldsets settings option_fields displayable = Ok value →
  ∃ m σ stone σ',
    load_fieldsets SHOP_CATEGORY_USE_FEATURED_IMAGE settings option_fields
      page displayable σ0 = Ok (m, σ)
    ∧ create_admins meta_fields m (registrations settings) σ
      = Ok ([ new_admin Product (m_product m);
              new_admin ProductTopka (m_topka m);
              new_admin ProductHearth (m_hearth m);
              new_admin ProductPortal (m_portal m);
              new_admin ProductFacing (m_facing m);
              stone ], σ')
    ∧ (∀ l fields, σ0 !! l = Some fields → σ' !! l = Some fields)
    ∧ m_category m = category
    ∧ load σ' (m_product m) = Some value
    ∧ load σ' (m_portal m) = Some (with_extra_fields portal_fields value)
    ∧ load σ' (m_facing m) = Some (with_extra_fields facing_fields value)
    ∧ load σ' (m_hearth m) = Some (with_extra_fields hearth_fields value)
    ∧ load σ' (m_topka m) = Some (with_extra_fields topka_fields value)
    ∧ model stone = ProductStone
    ∧ load σ' (fieldsets stone)
      = Some (with_extra_fields
                (f_name
                   <$> filter (λ f, (f_name f ∉ f_name <$> meta_fields Product)
                                    ∧ f_name f ≠ "product_ptr"
                                    ∧ f_editable f = true)
                         (meta_fields ProductStone))
                value)).
Proof.
  split.
  { intros Hempty. unfold load_fieldsets.
    destruct (category_fieldsets _ settings page) as [category | e] eqn:Hc.
    - destruct Hempty as [-> | ->]; [done |].
      by destruct (SHOP_USE_VARIATIONS settings).
    - by rewrite (category_fieldsets_raises _ _ _ _ Hc). }
  intros category value Hcategory Hvalue.
  destruct (product_fieldsets_first _ _ _ _ Hvalue)
    as (first & tail & -> & Hlen).
  unfold load_fieldsets. rewrite Hcategory, Hvalue.
  destruct (store_fieldsets (first :: tail) σ0) as [product σa] eqn:Hstore.
  apply store_fieldsets_spec in Hstore as (Hsuba & Hproduct & Hnodup & _).
  destruct (extended_fieldsets_step portal_fields product σa first tail)
    as (portal & σb & Hportal & Hsubb & Hportal_v); [done.. |].
  unfold portal_fieldsets. rewrite Hportal.
  pose proof (load_weaken _ _ _ _ Hsubb Hproduct) as Hproductb.
  destruct (extended_fieldsets_step facing_fields product σb first tail)
    as (facing & σc & Hfacing & Hsubc & Hfacing_v); [done.. |].
  unfold facing_fieldsets. rewrite Hfacing.
  pose proof (load_weaken _ _ _ _ Hsubc Hproductb) as Hproductc.
  destruct (extended_fieldsets_step hearth_fields product σc first tail)
    as (hearth & σd & Hhearth & Hsubd & Hhearth_v); [done.. |].
  unfold hearth_fieldsets. rewrite Hhearth.
  pose proof (load_weaken _ _ _ _ Hsubd Hproductc) as Hproductd.
  destruct (extended_fieldsets_step topka_fields product σd first tail)
    as (topka & σe & Htopka & Hsube & Htopka_v); [done.. |].
  unfold topka_fieldsets. rewrite Htopka.
  pose proof (load_weaken _ _ _ _ Hsube Hproductd) as Hproducte.
  assert (load σe portal = Some (with_extra_fields portal_fields (first :: tail)))
    as Hportale.
  { apply (load_weaken σb); [by do 2 etrans | done]. }
  assert (load σe facing = Some (with_extra_fields facing_fields (first :: tail)))
    as Hfacinge.
  { apply (load_weaken σc); [by etrans | done]. }
  assert (load σe hearth = Some (with_extra_fields hearth_fields (first :: tail)))
    as Hhearthe.
  { by apply (load_weaken σd). }
  set (m := {| m_category := category;
               m_product := product; m_portal := portal; m_facing := facing;
               m_hearth := hearth; m_topka := topka |}).
  (* the admin of [ProductStone] *)
  destruct (init_copy product meta_fields (new_admin ProductStone product) σe
              first tail)
    as (stone & σ' & first' & rest' & Hinit & Hsub' & Hown & Hnew & Hfirst
        & Hall); [done | done | done | lia |].
  assert (filter (λ f, is_extra_field
                         (check_fields (meta_fields Product)
                            (new_admin ProductStone product)) f = true)
            (meta_fields ProductStone)
          = filter (λ f, (f_name f ∉ f_name <$> meta_fields Product)
                         ∧ f_name f ≠ "product_ptr"
                         ∧ f_editable f = true)
              (meta_fields ProductStone)) as Hextra.
  { apply list_filter_iff. intros f. rewrite is_extra_field_spec.
    cbn [new_admin exclude form_meta_exclude default].
    rewrite elem_of_nil. tauto. }
  change (model (new_admin ProductStone product)) with ProductStone in Hall.
  rewrite Hextra in Hall.
  exists m, σe, stone, σ'. split; [done |].
  split.
  { unfold registrations.
    assert (∀ (extra : list string) self (σ : store),
              load σ (fieldsets self)
              = Some (with_extra_fields extra (first :: tail)) →
              load σ product = Some (first :: tail) →
              extra ≠ [] →
              __init__ product meta_fields self σ = Ok (self, σ)) as Hkeep.
    { intros extra self σ H1 H2 Hextra'.
      eapply init_differs; [exact H1 | exact H2 |].
      by apply extended_differs. }
    destruct (SHOP_USE_VARIATIONS settings);
      cbn [app create_admins Registry.is_ProductAdmin class_fieldsets
           m m_product m_portal m_facing m_hearth m_topka];
      rewrite (init_Product product meta_fields (new_admin Product product))
        by done;
      rewrite (Hkeep topka_fields
                 (new_admin ProductTopka topka) σe) by done;
      rewrite (Hkeep hearth_fields
                 (new_admin ProductHearth hearth) σe) by done;
      rewrite (Hkeep portal_fields
                 (new_admin ProductPortal portal) σe) by done;
      rewrite (Hkeep facing_fields
                 (new_admin ProductFacing facing) σe) by done;
      rewrite Hinit; done. }
  split.
  { intros l fields Hl. apply (lookup_weaken σ0); [done |].
    etrans; [exact Hsuba |]. etrans; [exact Hsubb |]. etrans; [exact Hsubc |].
    etrans; [exact Hsubd |]. by etrans. }
  split; [done |].
  split; [by apply (load_weaken σe) |].
  split; [by apply (load_weaken σe) |].
  split; [by apply (load_weaken σe) |].
  split; [by apply (load_weaken σe) |].
  split; [by apply (load_weaken σe) |].
  split.
  { unfold __init__ in Hinit. case_decide; [| by injection Hinit as <- _].
    destruct (deepcopy _ _) as [copy σx].
    destruct (insert_extra_fields _ _ _ _); [| done].
    by injection Hinit as <- _. }
  apply Hall. done.
Qed.

(** With the fieldsets of the sample and a page of one fieldset. *)
Example module_loaded_sample :
  ∃ m σ,
    load_fieldsets false Sample.settings Sample.option_fields
      Sample.displayable Sample.displayable ∅ = Ok (m, σ)
    ∧ load σ (m_product m) = Some Sample.product_fieldsets_value
    ∧ load_fieldsets false Sample.settings Sample.option_fields
        [] Sample.displayable ∅ = Raise IndexError.
Proof.
  destruct (load_fieldsets false Sample.settings Sample.option_fields
              Sample.displayable Sample.displayable ∅)
    as [[m σ] | e] eqn:Hload; [| vm_compute in Hload; discriminate Hload].
  exists m, σ. split; [done |].
  split; [| reflexivity].
  vm_compute in Hload. injection Hload as <- <-. reflexivity.
Qed.
